(** * aitools: the inference engine of the knowledge base

    A shallow embedding of [aitools/proofs/knowledge_base.py],
    [aitools/proofs/listeners.py] and [aitools/utils/asynctools.py], and the
    properties of retrieval, prover dispatch, listener firing and error
    propagation that the specification states about them.

    Conventions.
    - Python values that the engine inspects with [isinstance] are elements
      of the tagged type [PyValue]; a proof keeps its fields untyped, as the
      dataclass does.
    - An (async) generator run to its end is a [Stream]: the items it yields,
      in order, and the way it ends.
    - Every [Variable(...)] construction takes a new identity from an
      allocation counter ([Heap]) that is passed explicitly.
    - The order in which the event loop lets concurrent producers push into a
      shared queue is a [Schedule] argument; theorems quantify over it.
    - The queue between the scheduler's loop and the calling thread is read
      from both threads; whether a wake-up of its producer is lost, and at
      which element, is an argument too ([lost_wakeup]). *)

From Stdlib Require Import String Bool Arith Lia PeanoNat List Permutation.
Import ListNotations.
Open Scope string_scope.
Open Scope list_scope.

Set Implicit Arguments.
#[local] Set Warnings "-register-all".

(* ===================================================================== *)
(** ** Terms and substitutions ([aitools.logic]) *)
(* ===================================================================== *)

Module Logic.

(** A [Language] is a namespace token. *)
Definition Language := nat.

(** The allocation counter for variable identities: every identity handed
    out so far is below it. *)
Definition Heap := nat.

(** Host values lifted by [LogicWrapper]. *)
Inductive HostValue :=
| HostStr (s : string)
| HostInt (n : nat).

(** A variable is equal to another iff it is the same object; [var_ident]
    is that identity, [var_name] the attribute name it was requested under
    ([v.cat], [v._x]) when there is one. *)
Record VariableObject := mkVar {
  var_language : Language;
  var_name : option string;
  var_ident : nat
}.

(** Modelled from the spec: the term type of [aitools.logic.core], which is
    not under src; section 3 gives its four variants. *)
Inductive Term :=
| Var (v : VariableObject)
| Constant (name : string)
| LogicWrapper (value : HostValue)
| Expression (children : list Term).

(** Modelled from the spec: a substitution is a set of variable equivalence
    classes, each with an optional bound term (section 3; the tests build
    them as [subst((bound, [variables]), ...)]). *)
Definition Binding := (option Term * list VariableObject)%type.
Definition Substitution := list Binding.

(** [Substitution()] *)
Definition empty_substitution : Substitution := [].

(** The bijection returned by [normalize_variables]: source variable to
    fresh variable. *)
Definition Mapping := list (VariableObject * VariableObject).

(** [Variable(language=l)]: a new object. *)
Definition new_variable (l : Language) (name : option string) (h : Heap)
  : VariableObject * Heap :=
  (mkVar l name h, S h).

(** The parts of [aitools.logic] that the engine calls and that are not
    under src.  The engine is embedded over this interface; an instance
    that follows section 4.1 of the specification is given in
    [SpecLogic]. *)
Class Library := {
  (** [Substitution.unify(a, b, previous=...)]; [previous=None] stands for
      the empty substitution. *)
  unify : Term -> Term -> option Substitution -> option Substitution;
  (** [normalize_variables(term, language=...)] *)
  normalize_variables : Term -> Language -> Heap -> (Term * Mapping) * Heap;
  (** [substitution.apply_to(term)] *)
  apply_to : Substitution -> Term -> Term;
  (** [substitution.get_bound_object_for(variable)] *)
  get_bound_object_for : Substitution -> VariableObject -> Term
}.

End Logic.

(* ===================================================================== *)
(** ** Exceptions and generators *)
(* ===================================================================== *)

Inductive Exn :=
| RuntimeError
| NotImplementedError
| ValueError
| TypeError
| UnsafeOperationException
| UserException (name : string).

(** How a generator that has been iterated to its end stopped: it returned,
    it raised, or it is stuck waiting on a queue nobody writes to. *)
Inductive Ending :=
| Finished
| Raised (e : Exn)
| Blocked.

Record Stream (A : Type) := mkStream {
  yielded : list A;
  ending : Ending
}.

Arguments mkStream {A} _ _.

Definition empty_stream {A} : Stream A := mkStream [] Finished.
Definition raise_stream {A} (e : Exn) : Stream A := mkStream [] (Raised e).

(* ===================================================================== *)
(** ** [aitools/utils/asynctools.py] *)
(* ===================================================================== *)

Module asynctools.

(** Where a call is made from, as far as [asyncio.current_task()] can
    tell: a thread that runs no event loop, a callback that a running
    event loop invokes outside of any task, or a task. *)
Inductive CallSite :=
| NoRunningLoop
| LoopCallback
| InsideTask.

(** The task object that [asyncio.current_task()] returns. *)
Inductive TaskObject := running_task.

(** [asyncio.current_task()]: raises [RuntimeError] when no event loop is
    running in the thread, returns [None] when a loop is running but no
    task is, and the task otherwise. *)
Definition current_task (site : CallSite) : Exn + option TaskObject :=
  match site with
  | NoRunningLoop => inl RuntimeError
  | LoopCallback => inr None
  | InsideTask => inr (Some running_task)
  end.

(** [[
    def is_inside_task():
        try:
            asyncio.current_task()
        except RuntimeError:
            return False
        else:
            return True
    ]] *)
Definition is_inside_task (site : CallSite) : bool :=
  match current_task site with
  | inl RuntimeError => false
  | inl _ => true (* not reached: current_task raises nothing else *)
  | inr _ => true
  end.

(** What travels through a queue: a produced element or the poison pill. *)
Inductive QueueItem (A : Type) :=
| Item (a : A)
| Pill.
Arguments Item {A} _.
Arguments Pill {A}.

(** A task that has run to its end: what it put into the queue, in order,
    and the exception its future holds (if any). *)
Record Task (A : Type) := mkTask {
  pushed : list (QueueItem A);
  task_exception : option Exn
}.
Arguments mkTask {A} _ _.

(** [[
    async def collect(async_generator, queue, poison_pill):
        try:
            async for res in async_generator:
                await queue.put(res)
        finally:
            await queue.put(poison_pill)
    ]]
    Every yielded element is pushed; the [finally] clause pushes the pill
    on every exit; an exception of the generator leaves the coroutine and
    is stored in the task.  A generator that blocks never reaches the
    [finally] clause. *)
Definition collect {A} (async_generator : Stream A) : Task A :=
  match ending async_generator with
  | Finished => mkTask (map Item (yielded async_generator) ++ [Pill]) None
  | Raised e => mkTask (map Item (yielded async_generator) ++ [Pill]) (Some e)
  | Blocked => mkTask (map Item (yielded async_generator)) None
  end.

(** The event loop's choices: entry [k] of a schedule lets the [k]-th
    producer that still has something to push go next. *)
Definition Schedule := list nat.

(** Take the head of the [k]-th non-empty queue. *)
Fixpoint pick {X} (k : nat) (qs : list (list X)) : option (X * list (list X)) :=
  match qs with
  | [] => None
  | [] :: rest =>
      match pick k rest with
      | Some (x, rest') => Some (x, [] :: rest')
      | None => None
      end
  | (x :: q) :: rest =>
      match k with
      | 0 => Some (x, q :: rest)
      | S k' =>
          match pick k' rest with
          | Some (y, rest') => Some (y, (x :: q) :: rest')
          | None => None
          end
      end
  end.

(** The sequence in which the elements of several producers reach the
    shared queue under a schedule; a choice that names no live producer
    falls back to the first live one. *)
Fixpoint interleave {X} (fuel : nat) (sched : Schedule) (qs : list (list X))
  : list X :=
  match fuel with
  | 0 => []
  | S fuel' =>
      match pick (hd 0 sched) qs with
      | Some (x, qs') => x :: interleave fuel' (tl sched) qs'
      | None =>
          match pick 0 qs with
          | Some (x, qs') => x :: interleave fuel' (tl sched) qs'
          | None => []
          end
      end
  end.

Definition total_length {X} (qs : list (list X)) : nat :=
  length (concat qs).

Definition queue_trace {X} (sched : Schedule) (qs : list (list X)) : list X :=
  interleave (total_length qs) sched qs.

(** The consumer loop of [multiplex]:
    [[
    while currently_running_count > 0:
        res = await queue.get()
        if res is pill:
            currently_running_count -= 1
        else:
            yield res
    ]]
    run against the sequence of elements that reach the queue. *)
Fixpoint consume {A} (trace : list (QueueItem A)) (currently_running_count : nat)
  : Stream A :=
  match currently_running_count with
  | 0 => mkStream [] Finished
  | S count' =>
      match trace with
      | [] => mkStream [] Blocked
      | Pill :: trace' => consume trace' count'
      | Item res :: trace' =>
          let rest := consume trace' currently_running_count in
          mkStream (res :: yielded rest) (ending rest)
      end
  end.

(** [[
    async def multiplex( *generators, buffer_size):
        queue = asyncio.Queue(maxsize=buffer_size)
        currently_running_count = len(generators)
        pill = object()
        for generator in generators:
            asyncio.create_task(collect(generator, queue, pill))
        while currently_running_count > 0: ...
    ]]
    The tasks are created and dropped: nothing reads their exception. *)
Definition multiplex {A} (sched : Schedule) (generators : list (Stream A))
  : Stream A :=
  let tasks := map collect generators in
  consume (queue_trace sched (map (@pushed A) tasks)) (length generators).

(** The consumer loop of [Scheduler.schedule_generator],
    [[
    while True:
        try:
            el = asyncio.run_coroutine_threadsafe(self.__get_from_queue(queue), self.loop).result()
            while True:
                if el is self.__poison_pill:
                    return
                yield el
                el = queue.get_nowait()
        except QueueEmpty:
            pass
    ]]
    run against the sequence of elements that reach the queue, when every
    element the producer puts is eventually got. *)
Fixpoint drain {A} (trace : list (QueueItem A)) : Stream A :=
  match trace with
  | [] => mkStream [] Blocked
  | Pill :: _ => mkStream [] Finished
  | Item el :: trace' =>
      let rest := drain trace' in
      mkStream (el :: yielded rest) (ending rest)
  end.

(** One [collect] task feeds the queue and the calling thread drains it.
    The future returned by [run_coroutine_threadsafe(collect(...))] is
    dropped. *)
Definition hand_over {A} (generator : Stream A) : Stream A :=
  drain (pushed (collect generator)).

(** [Scheduler.schedule_generator(self, generator, *, buffer_size)].

    The queue is a [ThreadSafeishQueue(max_size=buffer_size)].  The first
    element of every round is got on the loop's thread
    ([__get_from_queue]); the following ones are got by [queue.get_nowait()]
    on the calling thread, while [collect] runs [queue.put] on the loop's
    thread:
    [[
    async def put(self, item):          # asyncio.Queue
        while self.full():
            putter = self._get_loop().create_future()
            self._putters.append(putter)
            await putter
        return self.put_nowait(item)
    ]]
    With [buffer_size = 0] the queue is never full and [put] never waits.
    With a bounded queue a [get_nowait] that runs between [self.full()] and
    [self._putters.append(putter)] finds no putter to wake: the element it
    takes is yielded, the producer waits for ever, and so does the next
    [__get_from_queue].  The element taken by such a [get_nowait] is never
    the first one, and the producer was putting a further element or the
    pill.  [lost_wakeup = Some n] says that this happens to the [get_nowait]
    that takes the [n]-th element; [None], that it does not happen. *)
Definition schedule_generator {A} (buffer_size : nat) (lost_wakeup : option nat)
    (generator : Stream A) : Stream A :=
  match buffer_size, lost_wakeup with
  | S _, Some n =>
      if Nat.leb 2 n && Nat.leb n (length (yielded generator))
      then mkStream (firstn n (yielded generator)) Blocked
      else hand_over generator
  | _, _ => hand_over generator
  end.

End asynctools.

(* ===================================================================== *)
(** ** Python values, proofs and components *)
(* ===================================================================== *)

Import Logic.

Module components.

Inductive HandlerArgumentMode :=
| RAW
| MAP
| MAP_UNWRAPPED
| MAP_UNWRAPPED_REQUIRED
| MAP_NO_VARIABLES
| MAP_UNWRAPPED_NO_VARIABLES.

Inductive HandlerSafety :=
| SAFE
| TOTALLY_UNSAFE.

Definition HandlerSafety_eqb (a b : HandlerSafety) : bool :=
  match a, b with
  | SAFE, SAFE | TOTALLY_UNSAFE, TOTALLY_UNSAFE => true
  | _, _ => false
  end.

End components.
Import components.

(** The values a handler can hand back and a proof can hold, by the classes
    that [Listener.ponder] tells apart.  [PyGenerator] stands for every
    iterable or async iterable that is not a tuple (a list, a generator, an
    async generator): its elements and how the iteration stops.  [PyObject]
    is an object of any other class; it is not iterable. *)
Inductive PyValue :=
| PyNone
| PyLogicObject (t : Term)
| PySubstitution (s : Substitution)
| PyProof (p : Proof)
| PyFormulaSubstitution (formula substitution : PyValue)
| PyFormulaSubstitutionPremises (formula substitution premises : PyValue)
| PyTuple (elements : list PyValue)
| PyGenerator (elements : list PyValue) (stop : Ending)
| PyCoroutine (result : PyValue)
| PyHost (v : HostValue)
| PyObject (type_name : string)

(** [Proof(inference_rule, conclusion, substitution, premises)]; the
    dataclass does not check its fields. *)
with Proof :=
| mkProof (inference_rule : InferenceRule) (conclusion substitution : PyValue)
          (premises : list PyValue)

(** What a proof's [inference_rule] can be: [TriggeringFormula()],
    [Pondering(listener=..., triggering_formula=...)], or a prover.
    Components are referred to by object identity. *)
with InferenceRule :=
| TriggeringFormula
| Pondering (listener : nat) (triggering_formula : PyValue)
| ProvedBy (prover : nat).

Definition inference_rule (p : Proof) : InferenceRule :=
  match p with mkProof r _ _ _ => r end.
Definition conclusion (p : Proof) : PyValue :=
  match p with mkProof _ c _ _ => c end.
Definition substitution (p : Proof) : PyValue :=
  match p with mkProof _ _ s _ => s end.
Definition premises (p : Proof) : list PyValue :=
  match p with mkProof _ _ _ ps => ps end.

(** [isinstance(x, LogicObject)] *)
Definition is_LogicObject (x : PyValue) : bool :=
  match x with PyLogicObject _ => true | _ => false end.

(** [isinstance(x, Proof)] *)
Definition is_Proof (x : PyValue) : bool :=
  match x with PyProof _ => true | _ => false end.

(** Keyword arguments of a handler call. *)
Definition Kwargs := list (string * PyValue).

(** A call of user code: it returns a value or raises. *)
Inductive CallResult :=
| Returns (result : PyValue)
| Raises (e : Exn).

(** [Listener(listened_formula=..., handler=..., argument_mode=..., pure=...,
    safety=...)].  [ident] is the identity of the object, [_language] the
    language its listened formula is normalized into. *)
Record Listener := mkListener {
  ident : nat;
  listened_formula : Term;
  handler : Kwargs -> CallResult;
  argument_mode : HandlerArgumentMode;
  pure : bool;
  safety : HandlerSafety;
  _language : Language
}.

(** The handler of a prover.  [retrieve_knowledge] is the closure that
    [__make_knowledge_retriever] builds over the knowledge base; any other
    prover is given by the stream of proofs it produces for a goal and a
    previous substitution (the Prover contract of section 3). *)
Inductive ProverHandler :=
| retrieve_knowledge
| prover_function (run : Term -> Substitution -> Heap -> Stream Proof * Heap).

Record Prover := mkProver {
  prover_ident : nat;
  prover_listened_formula : Term;
  prover_handler : ProverHandler;
  prover_argument_mode : HandlerArgumentMode;
  prover_pure : bool;
  prover_safety : HandlerSafety
}.

Inductive PonderMode :=
| KNOWN
| PROVE
| HYPOTHETICALLY.

(** What a caller can pass as [ponder_mode]: a member of the enumeration or
    any other object. *)
Inductive PonderModeArgument :=
| Mode (m : PonderMode)
| NotAMode (repr : string).

(* ===================================================================== *)
(** ** The collaborators of the knowledge base *)
(* ===================================================================== *)

(** [aitools.storage.base.LogicObjectStorage] (section 6): the formulas a
    storage holds, the candidates it proposes for a term, and [add]. *)
Class LogicObjectStorage := {
  Storage : Type;
  Metadata : Type;
  contents : Storage -> list Term;
  search_unifiable : Storage -> Term -> list (Term * Metadata);
  storage_add : Storage -> list Term -> Storage
}.

(** [aitools.storage.index]: [make_key] and an index of entries by key. *)
Class AbstruseIndex := {
  Key : Type;
  make_key : Term -> Key;
  Index : Type -> Type;
  index_empty : forall A, Index A;
  index_add : forall A, (A -> nat) -> Key -> A -> Index A -> Index A;
  index_retrieve : forall A, Index A -> Key -> list A
}.

Arguments index_empty {_} A.
Arguments index_add {_ A} _ _ _ _.
Arguments index_retrieve {_ A} _ _.

(* ===================================================================== *)
(** ** The knowledge base object *)
(* ===================================================================== *)

Section KnowledgeBaseObject.
Context {storage_class : LogicObjectStorage} {index_class : AbstruseIndex}.

(** The attributes that [KnowledgeBase.__init__] sets.  [_variable_source]
    draws from the allocation counter and [_scheduler] is the event loop
    whose choices are the [Schedule] arguments below; neither holds data
    of its own. *)
Record KnowledgeBase := mkKnowledgeBase {
  _storage : Storage;
  kb_language : Language;
  _prover_storage : Index Prover;
  _listener_storage : Index Listener;
  knowledge_retriever : Prover
}.

(** [[
    def is_hypothetical(self) -> bool:
        # TODO: when hypotheses exist, this must be done
        return False
    ]] *)
Definition is_hypothetical (self : KnowledgeBase) : bool := false.

End KnowledgeBaseObject.

(* ===================================================================== *)
(** ** [aitools/proofs/listeners.py] *)
(* ===================================================================== *)

Module listeners.
Section Listeners.
Context {logic : Library} {storage_class : LogicObjectStorage}
        {index_class : AbstruseIndex}.

(** [Substitution.unify(formula, normalized, previous=proof.substitution)]
    on the untyped fields of a proof: a conclusion that is no term or a
    substitution that is neither a substitution nor [None] makes the call
    fail with a type error. *)
Definition unify_fields (formula : PyValue) (normalized : Term)
    (previous : PyValue) : Exn + option Substitution :=
  match formula, previous with
  | PyLogicObject f, PySubstitution s => inr (unify f normalized (Some s))
  | PyLogicObject f, PyNone => inr (unify f normalized None)
  | _, _ => inl TypeError
  end.

(** The value passed for one variable of the trigger under an argument
    mode, or the refusal ([ValueError]). *)
Definition marshal (mode : HandlerArgumentMode) (bound : Term) : Exn + PyValue :=
  match mode, bound with
  | RAW, _ => inr (PyLogicObject bound)
  | MAP, _ => inr (PyLogicObject bound)
  | MAP_UNWRAPPED, LogicWrapper v => inr (PyHost v)
  | MAP_UNWRAPPED, _ => inr (PyLogicObject bound)
  | MAP_UNWRAPPED_REQUIRED, LogicWrapper v => inr (PyHost v)
  | MAP_UNWRAPPED_REQUIRED, _ => inl ValueError
  | MAP_NO_VARIABLES, Var _ => inl ValueError
  | MAP_NO_VARIABLES, _ => inr (PyLogicObject bound)
  | MAP_UNWRAPPED_NO_VARIABLES, Var _ => inl ValueError
  | MAP_UNWRAPPED_NO_VARIABLES, LogicWrapper v => inr (PyHost v)
  | MAP_UNWRAPPED_NO_VARIABLES, _ => inr (PyLogicObject bound)
  end.

Fixpoint marshal_all (mode : HandlerArgumentMode) (unifier : Substitution)
    (normalization_mapping : Mapping) : Exn + Kwargs :=
  match normalization_mapping with
  | [] => inr []
  | (source, fresh) :: rest =>
      match marshal mode (get_bound_object_for unifier fresh) with
      | inl e => inl e
      | inr value =>
          match marshal_all mode unifier rest with
          | inl e => inl e
          | inr kwargs =>
              match var_name source with
              | Some name => inr ((name, value) :: kwargs)
              | None => inr kwargs
              end
          end
      end
  end.

(** Modelled from the spec: [Component._extract_args_by_name], which
    [aitools.proofs.components] defines and which is not under src.  The
    table of section 6: RAW passes [formula] and [substitution] as they
    are; the MAP modes pass, for each variable of the trigger, the term
    bound to it under the unifier, unwrapped or refused as the mode says.
    A refusal is the [ValueError] that [Listener.ponder] catches.
    MAP_UNWRAPPED_NO_VARIABLES unwraps wrappers and refuses variables, as
    [test_listener_argument_mode_map_unwrapped_no_variables_*] have it. *)
Definition _extract_args_by_name (self : Listener) (formula : PyValue)
    (unifier : Substitution) (normalization_mapping : Mapping) : Exn + Kwargs :=
  match argument_mode self with
  | RAW => inr [("formula", formula); ("substitution", PySubstitution unifier)]
  | mode => marshal_all mode unifier normalization_mapping
  end.

(** The test that decides whether the handler's result is one item:
    [[
    isinstance(result, (LogicObject, FormulaSubstitution, FormulaSubstitutionPremises)) or
    (isinstance(result, tuple) and len(result) in (2, 3) and
     not all(isinstance(x, LogicObject) for x in result))
    ]] *)
Definition is_single_item (result : PyValue) : bool :=
  match result with
  | PyLogicObject _ => true
  | PyFormulaSubstitution _ _ => true
  | PyFormulaSubstitutionPremises _ _ _ => true
  | PyTuple elements =>
      (Nat.eqb (length elements) 2 || Nat.eqb (length elements) 3)
      && negb (forallb is_LogicObject elements)
  | _ => false
  end.

(** Iterating a Python value: its elements and how the iteration stops, or
    the [TypeError] of a value that is not iterable.  A string iterates
    over its characters. *)
Definition iterate (x : PyValue) : Stream PyValue :=
  match x with
  | PyTuple elements => mkStream elements Finished
  | PyGenerator elements stop => mkStream elements stop
  | PyHost (HostStr s) =>
      mkStream
        (map (fun c => PyHost (HostStr (String c EmptyString)))
             (list_ascii_of_string s))
        Finished
  | _ => raise_stream TypeError
  end.

(** What [async for item in result] runs over, after
    [[
    if (single item): result = asynctools.wrap_item_in_async_generator(result)
    if isinstance(result, Iterable): result = asynctools.asynchronize(result)
    ]] *)
Definition result_items (result : PyValue) : Stream PyValue :=
  if is_single_item result then mkStream [result] Finished
  else iterate result.

(** The branches of the loop body that read an item: conclusion,
    substitution and extra premises, or the [ValueError] of a shape that is
    not accepted. *)
Definition read_item (unifier : Substitution) (item : PyValue)
  : Exn + (PyValue * PyValue * PyValue) :=
  match item with
  | PyTuple [conclusion; substitution] =>
      inr (conclusion, substitution, PyTuple [])
  | PyTuple [conclusion; substitution; premises] =>
      (* if a single proof was returned, wrap it in a tuple *)
      inr (conclusion, substitution,
           if is_Proof premises then PyTuple [premises] else premises)
  | PyTuple _ => inl ValueError
  | PyLogicObject _ => inr (item, PySubstitution unifier, PyTuple [])
  | PyFormulaSubstitution formula substitution =>
      inr (formula, substitution, PyTuple [])
  | PyFormulaSubstitutionPremises formula substitution premises =>
      inr (formula, substitution,
           if is_Proof premises then PyTuple [premises] else premises)
  | _ => inl ValueError
  end.

(** The loop
    [[
    async for item in result:
        ...
        proof = Proof(
            inference_rule=Pondering(listener=self, triggering_formula=formula),
            conclusion=conclusion, substitution=substitution,
            premises=tuple(itertools.chain((proof,), premises)))
        yield proof
    ]]
    The assignment rebinds the parameter [proof]: the next iteration
    chains its premises after the proof that was just yielded. *)
Fixpoint emit (self : Listener) (formula : PyValue) (unifier : Substitution)
    (items : list PyValue) (stop : Ending) (proof : Proof) : Stream Proof :=
  match items with
  | [] => mkStream [] stop
  | item :: rest =>
      match read_item unifier item with
      | inl e => raise_stream e
      | inr (conclusion, substitution, premises) =>
          let chained := iterate premises in
          match ending chained with
          | Finished =>
              let proof' :=
                mkProof (Pondering (ident self) formula) conclusion substitution
                        (PyProof proof :: yielded chained) in
              let more := emit self formula unifier rest stop proof' in
              mkStream (proof' :: yielded more) (ending more)
          | stopped => mkStream [] stopped
          end
      end
  end.

(** The guard at the head of [Listener.ponder]:
    [[
    if knowledge_base.is_hypothetical() and self.safety == HandlerSafety.TOTALLY_UNSAFE:
        raise UnsafeOperationException(...)
    ]] *)
Definition safety_gate (self : Listener) (knowledge_base : KnowledgeBase)
  : option Exn :=
  if is_hypothetical knowledge_base
     && HandlerSafety_eqb (safety self) TOTALLY_UNSAFE
  then Some UnsafeOperationException
  else None.

(** The part of [Listener.ponder] from the handler call on. *)
Definition fire (self : Listener) (proof : Proof) (unifier : Substitution)
    (args_by_name : Kwargs) : Stream Proof :=
  let formula := conclusion proof in
  match handler self args_by_name with
  | Raises e => raise_stream e
  | Returns result =>
      (* if isinstance(result, typing.Coroutine): result = await result *)
      let result := match result with PyCoroutine r => r | _ => result end in
      match result with
      | PyNone => empty_stream
      | _ =>
          let items := result_items result in
          emit self formula unifier (yielded items) (ending items) proof
      end
  end.

(** [Listener.ponder(self, proof, knowledge_base)] *)
Definition ponder (self : Listener) (proof : Proof)
    (knowledge_base : KnowledgeBase) (h : Heap) : Stream Proof * Heap :=
  let formula := conclusion proof in
  match safety_gate self knowledge_base with
  | Some e => (raise_stream e, h)
  | None =>
      let '((normalized_listened_formula, normalization_mapping), h') :=
        normalize_variables (listened_formula self) (_language self) h in
      match unify_fields formula normalized_listened_formula (substitution proof) with
      | inl e => (raise_stream e, h')
      | inr None => (empty_stream, h')
      | inr (Some unifier) =>
          match _extract_args_by_name self formula unifier normalization_mapping with
          | inl ValueError => (empty_stream, h')
          | inl e => (raise_stream e, h')
          | inr args_by_name => (fire self proof unifier args_by_name, h')
          end
      end
  end.

End Listeners.
End listeners.

(* ===================================================================== *)
(** ** Effects: allocation and scheduling *)
(* ===================================================================== *)

(** The state that a run of the engine threads: the allocation counter and
    the choices the event loop has still to make. *)
Record World := mkWorld {
  heap : Heap;
  choices : asynctools.Schedule
}.

Definition M (A : Type) : Type := World -> A * World.

Definition ret {A} (a : A) : M A := fun w => (a, w).

Definition bind {A B} (c : M A) (k : A -> M B) : M B :=
  fun w => let (a, w') := c w in k a w'.

Declare Scope engine_scope.
Delimit Scope engine_scope with engine.
Notation "x <- c ;; k" := (bind c (fun x => k))
  (at level 61, c at next level, right associativity) : engine_scope.
Open Scope engine_scope.

(** A computation that only allocates. *)
Definition allocating {A} (c : Heap -> A * Heap) : M A :=
  fun w => let (a, h') := c (heap w) in (a, mkWorld h' (choices w)).

(** The generators that one [multiplex] collects are run one after the
    other; what is left to the schedule is the order in which their elements
    reach the queue. *)
Fixpoint sequence {A} (cs : list (M A)) : M (list A) :=
  match cs with
  | [] => ret []
  | c :: rest => a <- c ;; more <- sequence rest ;; ret (a :: more)
  end.

(** [asynctools.multiplex] under the event loop's next choices, one for each
    element that reaches the queue. *)
Definition multiplex {A} (generators : list (Stream A)) : M (Stream A) :=
  fun w =>
    let pushes := map (fun g => asynctools.pushed (asynctools.collect g)) generators in
    (asynctools.multiplex (choices w) generators,
     mkWorld (heap w) (skipn (asynctools.total_length pushes) (choices w))).

(* ===================================================================== *)
(** ** [aitools/proofs/knowledge_base.py] *)
(* ===================================================================== *)

Module knowledge_base.
Section KnowledgeBaseMethods.
Context {logic : Library} {storage_class : LogicObjectStorage}
        {index_class : AbstruseIndex}.

(** [[
    def __make_knowledge_retriever(self):
        async def retrieve_knowledge(formula, substitution): ...
        # this is impure to ensure it is always called during proof verification
        return Prover(
            listened_formula=Variable(language=self._language), handler=retrieve_knowledge,
            argument_mode=HandlerArgumentMode.RAW, pass_substitution_as=..., pure=False,
            safety=HandlerSafety.SAFE)
    ]]
    Two objects are created: the variable and the prover. *)
Definition __make_knowledge_retriever (language : Language) (h : Heap)
  : Prover * Heap :=
  let (variable, h1) := new_variable language None h in
  (mkProver h1 (Var variable) retrieve_knowledge RAW false SAFE, S h1).

(** [KnowledgeBase.__init__(self, storage)]; [Language()] is a new object
    too. *)
Definition __init__ (storage : Storage) (h : Heap) : KnowledgeBase * Heap :=
  let language := h in
  let (retriever, h') := __make_knowledge_retriever language (S h) in
  (mkKnowledgeBase storage language (index_empty Prover) (index_empty Listener)
                   retriever,
   h').

(** The loop of [_retrieve] over the candidates of the storage:
    [[
    for expr, _ in self._storage.search_unifiable(other=formula):
        normalized_expr, _ = normalize_variables(expr, language=self._language)
        subst = Substitution.unify(normalized_expr, formula, previous=previous_substitution)
        if subst is not None:
            yield subst
    ]] *)
Fixpoint retrieve_loop (language : Language) (formula : Term)
    (previous_substitution : option Substitution)
    (candidates : list (Term * Metadata)) (h : Heap)
  : list Substitution * Heap :=
  match candidates with
  | [] => ([], h)
  | (expr, _) :: rest =>
      let '((normalized_expr, _), h1) := normalize_variables expr language h in
      let subst := unify normalized_expr formula previous_substitution in
      let (more, h2) :=
        retrieve_loop language formula previous_substitution rest h1 in
      (match subst with
       | Some s => s :: more
       | None => more
       end, h2)
  end.

(** [KnowledgeBase._retrieve(self, formula, *, previous_substitution=None)] *)
Definition _retrieve (self : KnowledgeBase) (formula : Term)
    (previous_substitution : option Substitution) (h : Heap)
  : list Substitution * Heap :=
  retrieve_loop (kb_language self) formula previous_substitution
                (search_unifiable (_storage self) formula) h.

(** The proof a prover yields for a substitution its handler produced. *)
Definition proof_of (self : Prover) (formula : Term) (s : Substitution) : Proof :=
  mkProof (ProvedBy (prover_ident self)) (PyLogicObject formula)
          (PySubstitution s) [].

(** Modelled from the spec: [Prover.prove], which the current
    [aitools.proofs.provers] defines and which is not under src.  Section
    4.4: a prover is invoked with (goal, previous substitution, knowledge
    base) and returns a lazy sequence of proofs; the knowledge retriever
    yields one proof per substitution that its handler,
    [[
    async def retrieve_knowledge(formula, substitution):
        async for substitution in self._retrieve(formula, previous_substitution=substitution):
            yield substitution
    ]]
    produces for the goal under the previous substitution. *)
Definition Prover_prove (self : Prover) (formula : Term)
    (previous_substitution : Substitution) (knowledge_base : KnowledgeBase)
  : M (Stream Proof) :=
  match prover_handler self with
  | retrieve_knowledge =>
      allocating (fun h =>
        let (substitutions, h') :=
          _retrieve knowledge_base formula (Some previous_substitution) h in
        (mkStream (map (proof_of self formula) substitutions) Finished, h'))
  | prover_function run =>
      allocating (run formula previous_substitution)
  end.

(** [[
    def add_formulas(self, *formulas):
        normalized_formulas = (normalize_variables(f, variable_source=self._variable_source)
                               for f in formulas)
        formulas = tuple(res for res, _ in normalized_formulas)
        self._storage.add( *formulas)
    ]] *)
Fixpoint normalize_all (language : Language) (formulas : list Term) (h : Heap)
  : list Term * Heap :=
  match formulas with
  | [] => ([], h)
  | f :: rest =>
      let '((res, _), h1) := normalize_variables f language h in
      let (more, h2) := normalize_all language rest h1 in
      (res :: more, h2)
  end.

Definition add_formulas (self : KnowledgeBase) (formulas : list Term) (h : Heap)
  : KnowledgeBase * Heap :=
  let (normalized, h') := normalize_all (kb_language self) formulas h in
  (mkKnowledgeBase (storage_add (_storage self) normalized) (kb_language self)
                   (_prover_storage self) (_listener_storage self)
                   (knowledge_retriever self),
   h').

(** [[
    def add_prover(self, prover):
        key = make_key(prover.listened_formula)
        self._prover_storage.add(key, prover)
    ]] *)
Definition add_prover (self : KnowledgeBase) (prover : Prover) : KnowledgeBase :=
  let key := make_key (prover_listened_formula prover) in
  mkKnowledgeBase (_storage self) (kb_language self)
                  (index_add prover_ident key prover (_prover_storage self))
                  (_listener_storage self) (knowledge_retriever self).

(** [add_listener], likewise. *)
Definition add_listener (self : KnowledgeBase) (listener : Listener)
  : KnowledgeBase :=
  let key := make_key (listened_formula listener) in
  mkKnowledgeBase (_storage self) (kb_language self) (_prover_storage self)
                  (index_add ident key listener (_listener_storage self))
                  (knowledge_retriever self).

(** [[
    def get_listeners_for(self, formula):
        key = make_key(formula)
        yield from self._listener_storage.retrieve(key)
    ]] *)
Definition get_listeners_for (self : KnowledgeBase) (formula : Term)
  : list Listener :=
  let key := make_key formula in
  index_retrieve (_listener_storage self) key.

Definition get_provers_for (self : KnowledgeBase) (formula : Term)
  : list Prover :=
  let key := make_key formula in
  index_retrieve (_prover_storage self) key.

(** [previous_substitution or Substitution()] *)
Definition or_empty (previous_substitution : option Substitution) : Substitution :=
  match previous_substitution with
  | Some s => s
  | None => empty_substitution
  end.

(** The list [proof_sources] that [_prepare_proof_sources] builds:
    [[
    proof_sources = [
        self.knowledge_retriever.prove(formula, previous_substitution=..., knowledge_base=self)
    ]
    if not retrieve_only:
        proof_sources.extend(
            prover.prove(formula, previous_substitution=..., knowledge_base=self)
            for prover in self.get_provers_for(formula))
    ]] *)
Definition proof_sources (self : KnowledgeBase) (formula : Term)
    (retrieve_only : bool) (previous_substitution : option Substitution)
  : list (M (Stream Proof)) :=
  let previous_substitution := or_empty previous_substitution in
  [Prover_prove (knowledge_retriever self) formula previous_substitution self]
  ++ (if negb retrieve_only
      then map (fun prover => Prover_prove prover formula previous_substitution self)
               (get_provers_for self formula)
      else []).

(** [[
    proof_process = asynctools.multiplex( *proof_sources, buffer_size=1)
    return proof_process
    ]] *)
Definition _prepare_proof_sources (self : KnowledgeBase) (formula : Term)
    (retrieve_only : bool) (previous_substitution : option Substitution)
  : M (Stream Proof) :=
  sources <- sequence (proof_sources self formula retrieve_only previous_substitution) ;;
  multiplex sources.

(** [[
    def prove(self, formula, *, retrieve_only=False, previous_substitution=None):
        if asynctools.is_inside_task():
            raise RuntimeError(...)
        proof_process = self._prepare_proof_sources(...)
        for proof in self._scheduler.schedule_generator(proof_process, buffer_size=0):
            yield proof
    ]] *)
Definition prove (site : asynctools.CallSite) (self : KnowledgeBase)
    (formula : Term) (retrieve_only : bool)
    (previous_substitution : option Substitution) : M (Stream Proof) :=
  if asynctools.is_inside_task site then ret (raise_stream RuntimeError)
  else
    proof_process <-
      _prepare_proof_sources self formula retrieve_only previous_substitution ;;
    ret (asynctools.schedule_generator 0 None proof_process).

(** [[
    async def async_prove(self, formula, *, retrieve_only=False, previous_substitution=None):
        if not asynctools.is_inside_task():
            raise RuntimeError(...)
        proof_process = self._prepare_proof_sources(...)
        async for proof in proof_process:
            yield proof
    ]] *)
Definition async_prove (site : asynctools.CallSite) (self : KnowledgeBase)
    (formula : Term) (retrieve_only : bool)
    (previous_substitution : option Substitution) : M (Stream Proof) :=
  if negb (asynctools.is_inside_task site) then ret (raise_stream RuntimeError)
  else _prepare_proof_sources self formula retrieve_only previous_substitution.

(** The generators that [__make_proving_process] multiplexes are iterated
    by the tasks that [multiplex] creates. *)
Definition proving_sources (self : KnowledgeBase) (formulas : list Term)
    (retrieve_only : bool) : list (M (Stream Proof)) :=
  map (fun f => async_prove asynctools.InsideTask self f retrieve_only None)
      formulas.

(** [[
    def __make_proving_process(self, formulas, ponder_mode):
        if ponder_mode == PonderMode.HYPOTHETICALLY:
            raise NotImplementedError(...)
        elif ponder_mode == PonderMode.KNOWN:
            proving_process = asynctools.multiplex(
                *(self.async_prove(f, retrieve_only=True) for f in formulas), buffer_size=1)
        elif ponder_mode == PonderMode.PROVE:
            proving_process = asynctools.multiplex(
                *(self.async_prove(f, retrieve_only=False) for f in formulas), buffer_size=1)
        else:
            raise NotImplementedError(f"Unknown ponder mode: {ponder_mode}")
        return proving_process
    ]] *)
Definition __make_proving_process (self : KnowledgeBase) (formulas : list Term)
    (ponder_mode : PonderModeArgument) : Exn + M (Stream Proof) :=
  match ponder_mode with
  | Mode HYPOTHETICALLY => inl NotImplementedError
  | Mode KNOWN =>
      inr (sources <- sequence (proving_sources self formulas true) ;;
           multiplex sources)
  | Mode PROVE =>
      inr (sources <- sequence (proving_sources self formulas false) ;;
           multiplex sources)
  | NotAMode _ => inl NotImplementedError
  end.

(** [[
    trigger_premise = Proof(
        inference_rule=TriggeringFormula(),
        conclusion=proof.substitution.apply_to(proof.conclusion),
        substitution=proof.substitution,
        premises=(proof,))
    ]] *)
Definition trigger_premise (proof : Proof) (c : Term) (s : Substitution) : Proof :=
  mkProof TriggeringFormula (PyLogicObject (apply_to s c)) (PySubstitution s)
          [PyProof proof].

(** [[
    async def __ponder_single_proof(self, proof, *, queue, poison_pill):
        pondering_sources = []
        for listener in self.get_listeners_for(proof.conclusion):
            trigger_premise = Proof(...)
            pondering_sources.append(listener.ponder(trigger_premise, knowledge_base=self))
        pondering_process = asynctools.multiplex( *pondering_sources, buffer_size=1)
        await asynctools.push_each_to_queue(pondering_process, queue=queue, poison_pill=poison_pill)
    ]]
    The result is the stream whose elements are pushed to the queue.  A
    proof whose conclusion is no term makes [make_key] fail.
    [proof.substitution] is touched in the body of the loop only: with no
    listener for the conclusion it is never looked at, with one the first
    round fails on a substitution that is no substitution. *)
Definition __ponder_single_proof (self : KnowledgeBase) (proof : Proof)
  : M (Stream Proof) :=
  match conclusion proof with
  | PyLogicObject c =>
      match get_listeners_for self c, substitution proof with
      | [], _ => multiplex []
      | retrieved, PySubstitution s =>
          pondering_sources <-
            sequence
              (map (fun listener =>
                      allocating
                        (listeners.ponder listener (trigger_premise proof c s) self))
                   retrieved) ;;
          multiplex pondering_sources
      | _ :: _, _ => ret (raise_stream TypeError)
      end
  | _ => ret (raise_stream TypeError)
  end.

(** Modelled from the spec: [asynctools.process_with_loopback], which
    [knowledge_base.py] imports and which is not under src.  Section 4.5:
    every proof of the input sequence is handed to the processor; what the
    processor produces is emitted and is itself handed to the processor
    again (the loopback queue); the process ends when nothing is pending.
    An error of the processor ends the process with that error (section
    7).  [depth_first] says whether derived proofs are taken up before or
    after the proofs that were already waiting.  The recursion is bounded
    by [fuel]; [None] means the bound was reached. *)
Fixpoint loopback {A} (processor : A -> M (Stream A)) (depth_first : bool)
    (fuel : nat) (pending : list A) : M (option (Stream A)) :=
  match pending with
  | [] => ret (Some empty_stream)
  | item :: waiting =>
      match fuel with
      | 0 => ret None
      | S fuel' =>
          produced <- processor item ;;
          match ending produced with
          | Finished =>
              later <-
                loopback processor depth_first fuel'
                  (if depth_first then yielded produced ++ waiting
                   else waiting ++ yielded produced) ;;
              ret (match later with
                   | Some more =>
                       Some (mkStream (yielded produced ++ yielded more) (ending more))
                   | None => None
                   end)
          | stopped => ret (Some (mkStream (yielded produced) stopped))
          end
      end
  end.

Definition process_with_loopback {A} (depth_first : bool) (fuel : nat)
    (input_sequence : Stream A) (processor : A -> M (Stream A))
  : M (option (Stream A)) :=
  derived <- loopback processor depth_first fuel (yielded input_sequence) ;;
  ret (match derived with
       | Some out =>
           Some (match ending out with
                 | Finished => mkStream (yielded out) (ending input_sequence)
                 | _ => out
                 end)
       | None => None
       end).

(** [[
    def ponder(self, *formulas, ponder_mode):
        proving_process = self.__make_proving_process(formulas, ponder_mode)
        for proof in self._scheduler.schedule_generator(
                process_with_loopback(input_sequence=proving_process,
                                      processor=self.__ponder_single_proof),
                buffer_size=1):
            yield proof
    ]]
    [lost_wakeup] is the fate of the bounded queue between the loop's
    thread and the calling thread, see [asynctools.schedule_generator]. *)
Definition ponder (depth_first : bool) (fuel : nat) (lost_wakeup : option nat)
    (self : KnowledgeBase) (formulas : list Term)
    (ponder_mode : PonderModeArgument)
  : M (option (Stream Proof)) :=
  match __make_proving_process self formulas ponder_mode with
  | inl e => ret (Some (raise_stream e))
  | inr make =>
      proving_process <- make ;;
      process <-
        process_with_loopback depth_first fuel proving_process
                              (__ponder_single_proof self) ;;
      ret (option_map (asynctools.schedule_generator 1 lost_wakeup) process)
  end.

End KnowledgeBaseMethods.
End knowledge_base.

(* ===================================================================== *)
(** ** An instance of the collaborators, after the specification *)
(* ===================================================================== *)

Module SpecLogic.

Definition Var_eqb (x y : VariableObject) : bool :=
  Nat.eqb (var_ident x) (var_ident y).

Definition HostValue_eqb (a b : HostValue) : bool :=
  match a, b with
  | HostStr s, HostStr t => String.eqb s t
  | HostInt n, HostInt m => Nat.eqb n m
  | _, _ => false
  end.

(** Equality of terms: variables and constants by identity, wrappers by
    the wrapped value, expressions child by child. *)
Fixpoint Term_eqb (a b : Term) : bool :=
  match a, b with
  | Var x, Var y => Var_eqb x y
  | Constant c, Constant d => String.eqb c d
  | LogicWrapper v, LogicWrapper w => HostValue_eqb v w
  | Expression xs, Expression ys =>
      (fix all2 (xs ys : list Term) : bool :=
         match xs, ys with
         | [], [] => true
         | x :: xs', y :: ys' => Term_eqb x y && all2 xs' ys'
         | _, _ => false
         end) xs ys
  | _, _ => false
  end.

Fixpoint size (t : Term) : nat :=
  match t with
  | Expression cs => S (fold_right (fun c n => size c + n) 0 cs)
  | _ => 1
  end.

Definition binding_size (b : Binding) : nat :=
  match fst b with
  | Some t => S (size t)
  | None => 1
  end.

Definition substitution_size (s : Substitution) : nat :=
  fold_right (fun b n => binding_size b + n) 0 s.

Definition in_class (v : VariableObject) (b : Binding) : bool :=
  existsb (Var_eqb v) (snd b).

(** The equivalence class a variable belongs to, if it has one. *)
Definition class_of (s : Substitution) (v : VariableObject) : option Binding :=
  find (in_class v) s.

(** Rule 1 of section 4.1: a term resolved to its current representative,
    the term its class is bound to or the first variable of the class. *)
Fixpoint resolve (fuel : nat) (s : Substitution) (t : Term) : Term :=
  match t with
  | Var v =>
      match class_of s v with
      | Some (Some bound, _) =>
          match fuel with
          | 0 => bound
          | S fuel' => resolve fuel' s bound
          end
      | Some (None, representative :: _) => Var representative
      | _ => t
      end
  | _ => t
  end.

(** Modelled from the spec: [Substitution.get_bound_object_for] (section
    4.2): the representative of the variable's class, or the variable
    itself. *)
Definition get_bound_object_for (s : Substitution) (v : VariableObject) : Term :=
  resolve (length s) s (Var v).

Fixpoint apply_fuel (fuel : nat) (s : Substitution) (t : Term) : Term :=
  match fuel with
  | 0 => t
  | S fuel' =>
      match resolve (length s) s t with
      | Expression cs => Expression (map (apply_fuel fuel' s) cs)
      | t' => t'
      end
  end.

(** Modelled from the spec: [Substitution.apply_to] (section 4.2): each
    variable rewritten by its class representative, recursively. *)
Definition apply_to (s : Substitution) (t : Term) : Term :=
  apply_fuel (size t + substitution_size s) s t.

(** The occurs check of rule 3. *)
Fixpoint occurs (fuel : nat) (s : Substitution) (v : VariableObject) (t : Term)
  : bool :=
  match fuel with
  | 0 => false
  | S fuel' =>
      match resolve (length s) s t with
      | Var w => Var_eqb v w
      | Expression cs => existsb (occurs fuel' s v) cs
      | _ => false
      end
  end.

(** Bind the class of [v] to [t]. *)
Definition bind_class (s : Substitution) (v : VariableObject) (t : Term)
  : Substitution :=
  match class_of s v with
  | Some _ =>
      map (fun b => if in_class v b then (Some t, snd b) else b) s
  | None => s ++ [(Some t, [v])]
  end.

Definition members (s : Substitution) (v : VariableObject) : list VariableObject :=
  match class_of s v with
  | Some b => snd b
  | None => [v]
  end.

(** Merge the classes of two unbound variables. *)
Definition merge_classes (s : Substitution) (x y : VariableObject) : Substitution :=
  filter (fun b => negb (in_class x b || in_class y b)) s
  ++ [(None, members s x ++ members s y)].

(** Rules 1 to 5 of section 4.1. *)
Fixpoint unify_fuel (fuel : nat) (a b : Term) (s : Substitution)
  : option Substitution :=
  match fuel with
  | 0 => None
  | S fuel' =>
      let a' := resolve (length s) s a in
      let b' := resolve (length s) s b in
      match a', b' with
      | Var x, Var y =>
          if Var_eqb x y then Some s else Some (merge_classes s x y)
      | Var x, t =>
          if occurs (size t + substitution_size s) s x t then None
          else Some (bind_class s x t)
      | t, Var y =>
          if occurs (size t + substitution_size s) s y t then None
          else Some (bind_class s y t)
      | Expression xs, Expression ys =>
          (fix pairwise (xs ys : list Term) (s : Substitution)
             : option Substitution :=
             match xs, ys with
             | [], [] => Some s
             | x :: xs', y :: ys' =>
                 match unify_fuel fuel' x y s with
                 | Some s' => pairwise xs' ys' s'
                 | None => None
                 end
             | _, _ => None
             end) xs ys s
      | Constant c, Constant d => if String.eqb c d then Some s else None
      | LogicWrapper v, LogicWrapper w =>
          if HostValue_eqb v w then Some s else None
      | _, _ => None
      end
  end.

(** Modelled from the spec: [Substitution.unify] (section 4.1), which
    [aitools.logic.unification] defines and which is not under src. *)
Definition unify (a b : Term) (previous : option Substitution)
  : option Substitution :=
  let s := match previous with Some s => s | None => empty_substitution end in
  unify_fuel (size a + size b + substitution_size s) a b s.

Fixpoint normalize_term (language : Language) (t : Term)
    (mapping : Mapping) (h : Heap) : Term * Mapping * Heap :=
  match t with
  | Var v =>
      match find (fun entry => Var_eqb (fst entry) v) mapping with
      | Some (_, fresh) => (Var fresh, mapping, h)
      | None =>
          let (fresh, h') := new_variable language (var_name v) h in
          (Var fresh, mapping ++ [(v, fresh)], h')
      end
  | Expression cs =>
      let '(cs', mapping', h') :=
        (fix children (cs : list Term) (mapping : Mapping) (h : Heap)
           : list Term * Mapping * Heap :=
           match cs with
           | [] => ([], mapping, h)
           | c :: rest =>
               let '(c', m1, h1) := normalize_term language c mapping h in
               let '(rest', m2, h2) := children rest m1 h1 in
               (c' :: rest', m2, h2)
           end) cs mapping h in
      (Expression cs', mapping', h')
  | _ => (t, mapping, h)
  end.

(** Modelled from the spec: [normalize_variables] (section 3): the same
    term with every variable replaced by a fresh variable of the target
    language, one per source variable, and the mapping used. *)
Definition normalize_variables (t : Term) (language : Language) (h : Heap)
  : (Term * Mapping) * Heap :=
  let '(t', mapping, h') := normalize_term language t [] h in
  ((t', mapping), h').

#[export] Instance library : Library := {
  Logic.unify := unify;
  Logic.normalize_variables := normalize_variables;
  Logic.apply_to := apply_to;
  Logic.get_bound_object_for := get_bound_object_for
}.

(** Modelled from the spec: the trivial storage that section 6 allows, a
    list of terms that proposes every stored term as a candidate. *)
#[export] Instance list_storage : LogicObjectStorage := {
  Storage := list Term;
  Metadata := unit;
  contents := fun store => store;
  search_unifiable := fun store _ => map (fun t => (t, tt)) store;
  storage_add := fun store terms => store ++ terms
}.

(** Keys of the index (section 4.3): variables collapse to a wildcard,
    constants and wrappers are themselves, expressions are sequences. *)
Inductive IndexKey :=
| Wildcard
| KeyConstant (name : string)
| KeyWrapper (v : HostValue)
| KeySequence (children : list IndexKey).

Fixpoint term_key (t : Term) : IndexKey :=
  match t with
  | Var _ => Wildcard
  | Constant c => KeyConstant c
  | LogicWrapper v => KeyWrapper v
  | Expression cs => KeySequence (map term_key cs)
  end.

(** A wildcard matches anything, a specific key matches its peer. *)
Fixpoint compatible (a b : IndexKey) : bool :=
  match a, b with
  | Wildcard, _ => true
  | _, Wildcard => true
  | KeyConstant c, KeyConstant d => String.eqb c d
  | KeyWrapper v, KeyWrapper w => HostValue_eqb v w
  | KeySequence xs, KeySequence ys =>
      (fix all2 (xs ys : list IndexKey) : bool :=
         match xs, ys with
         | [], [] => true
         | x :: xs', y :: ys' => compatible x y && all2 xs' ys'
         | _, _ => false
         end) xs ys
  | _, _ => false
  end.

(** Modelled from the spec: the list-backed index that section 4.3 allows
    ([DummyAbstruseIndex] is not under src).  An entry that is already
    registered, by identity, is not registered again
    ([test_single_listener_added_multiple_times]). *)
#[export] Instance list_index : AbstruseIndex := {
  Key := IndexKey;
  make_key := term_key;
  Index := fun A => list (IndexKey * A);
  index_empty := fun A => [];
  index_add := fun A identity key entry index =>
    if existsb (fun e => Nat.eqb (identity (snd e)) (identity entry)) index
    then index
    else index ++ [(key, entry)];
  index_retrieve := fun A index key =>
    map snd (filter (fun e => compatible (fst e) key) index)
}.

End SpecLogic.

(* ===================================================================== *)
(** ** Scenarios of [tests/proofs/test_listeners.py] *)
(* ===================================================================== *)

Module test_listeners.
Import SpecLogic knowledge_base.

(** [F(x)] for a constant [F]: the expression with children [F] and [x]. *)
Definition apply_constant (f : string) (x : Term) : Term :=
  Expression [Constant f; x].

(** [Listener(...)]: a new object with a language of its own. *)
Definition new_listener (formula : Term) (handler : Kwargs -> CallResult)
    (mode : HandlerArgumentMode) (pure : bool) (safety : HandlerSafety)
    (h : Heap) : Listener * Heap :=
  (mkListener h formula handler mode pure safety (S h), S (S h)).

(** [[
    def deduce_from_a_b(_x):
        return B(_x)
    ]]
    and its siblings; a call with other keyword arguments is a
    [TypeError]. *)
Definition deduce (f : string) (kwargs : Kwargs) : CallResult :=
  match kwargs with
  | [(name, PyLogicObject x)] =>
      if String.eqb name "_x" then Returns (PyLogicObject (apply_constant f x))
      else Raises TypeError
  | _ => Raises TypeError
  end.

Definition foo : Term := Constant "foo".

(** The state that [test_listener_chain] builds before it ponders: the
    fixture's knowledge base, the variable [v._x], the three listeners in
    the order the test adds them, and the formula [A(foo)]. *)
Definition chain_setup : KnowledgeBase * Heap :=
  let (kb, h0) := __init__ (storage_class := list_storage) [] 0 in
  let (x, h1) := new_variable h0 (Some "_x") (S h0) in
  let (b_c, h2) :=
    new_listener (apply_constant "B" (Var x)) (deduce "C") MAP true SAFE h1 in
  let (a_b, h3) :=
    new_listener (apply_constant "A" (Var x)) (deduce "B") MAP true SAFE h2 in
  let (c_d, h4) :=
    new_listener (apply_constant "C" (Var x)) (deduce "D") MAP true SAFE h3 in
  let kb := add_listener (add_listener (add_listener kb b_c) a_b) c_d in
  add_formulas kb [apply_constant "A" foo] h4.

Definition conclusions (s : Stream Proof) : list PyValue :=
  map conclusion (yielded s).

(** [[
    def failing_listener(cat):
        raise SomeException(f"Oh noes I failed with {cat}")
    def succeeding_listener(cat):
        return Meows(cat)
    ]] *)
Definition failing_listener (kwargs : Kwargs) : CallResult :=
  Raises (UserException "SomeException").

Definition succeeding_listener (kwargs : Kwargs) : CallResult :=
  match kwargs with
  | [(name, PyLogicObject x)] =>
      if String.eqb name "cat" then Returns (PyLogicObject (apply_constant "Meows" x))
      else Raises TypeError
  | _ => Raises TypeError
  end.

Definition Is (x y : Term) : Term := Expression [Constant "Is"; x; y].
Definition cat : Term := Constant "cat".
Definition dylan : Term := Constant "dylan".

(** The fixture's knowledge base, empty; its constructor takes the
    identities 0 to 2. *)
Definition test_knowledge_base : KnowledgeBase :=
  fst (__init__ (storage_class := list_storage) [] 0).

(** [v.cat] of a [VariableSource()] whose language is the object 3. *)
Definition v_cat : VariableObject := fst (new_variable 3 (Some "cat") 4).

(** The two listeners of
    [test_listener_exceptions_make_the_whole_thing_fail]. *)
Definition succeeding : Listener :=
  fst (new_listener (Is (Var v_cat) cat) succeeding_listener MAP true
                    TOTALLY_UNSAFE 5).

Definition failing : Listener :=
  fst (new_listener (Is (Var v_cat) cat) failing_listener MAP true
                    TOTALLY_UNSAFE 7).

(** The state that the test builds before it ponders. *)
Definition exception_setup : KnowledgeBase * Heap :=
  add_formulas (add_listener (add_listener test_knowledge_base succeeding) failing)
               [Is dylan cat] 9.

(** [[
    def deduce_meow_and_purr(_x):
        return Meows(_x), Purrs(_x)
    ]] *)
Definition deduce_meow_and_purr (kwargs : Kwargs) : CallResult :=
  match kwargs with
  | [(name, PyLogicObject x)] =>
      if String.eqb name "_x"
      then Returns (PyTuple [PyLogicObject (apply_constant "Meows" x);
                             PyLogicObject (apply_constant "Purrs" x)])
      else Raises TypeError
  | _ => Raises TypeError
  end.

(** The listener of [test_listener_multiple_formulas_returned] and the
    proof that triggers it. *)
Definition meow_and_purr_listener : Listener :=
  mkListener 10 (Is (Var (mkVar 0 (Some "_x") 11)) cat) deduce_meow_and_purr
             MAP true SAFE 12.

Definition dylan_is_a_cat : Proof :=
  mkProof TriggeringFormula (PyLogicObject (Is dylan cat))
          (PySubstitution empty_substitution) [].

(** The knowledge base of scenario 2 of the specification: [Is(dylan, cat)]
    has been added. *)
Definition cat_knowledge_base : KnowledgeBase :=
  fst (add_formulas test_knowledge_base [Is dylan cat] 3).

Definition Are (x y z : Term) : Term := Expression [Constant "Are"; x; y; z].

(** The listener of
    [test_listener_argument_mode_map_unwrapped_required_fails_if_input_is_not_wrapped];
    its handler returns nothing. *)
Definition unwrapped_required_listener : Listener :=
  mkListener 20
    (Are (Var (mkVar 0 (Some "first_cat") 21))
         (Var (mkVar 0 (Some "second_cat") 22)) cat)
    (fun _ => Returns PyNone) MAP_UNWRAPPED_REQUIRED true TOTALLY_UNSAFE 23.

(** The proof of [Are(dylan, wrapped_hugo, cat)] that triggers it. *)
Definition dylan_and_hugo_are_cats : Proof :=
  mkProof TriggeringFormula
          (PyLogicObject (Are dylan (LogicWrapper (HostStr "hugo")) cat))
          (PySubstitution empty_substitution) [].

End test_listeners.

(* ===================================================================== *)
(** ** Further inputs *)
(* ===================================================================== *)

Module examples.
Import SpecLogic knowledge_base test_listeners.

(** Two variables of a [VariableSource()] whose language is the object 3. *)
Definition v_x : VariableObject := fst (new_variable 3 (Some "x") 4).
Definition v_y : VariableObject := fst (new_variable 3 (Some "y") 5).

(** A knowledge base that stores a formula with a variable, [P(y)]. *)
Definition open_knowledge_base : KnowledgeBase :=
  fst (add_formulas test_knowledge_base [apply_constant "P" (Var v_y)] 6).

(** A goal with a variable of its own, [P(f(x))]. *)
Definition open_goal : Term :=
  apply_constant "P" (apply_constant "f" (Var v_x)).

(** A prover, listening to [Is(dylan, cat)], that proves its goal under
    the previous substitution without looking anything up. *)
Definition dylan_prover : Prover :=
  mkProver 9 (Is dylan cat)
    (prover_function
       (fun formula previous h =>
          (mkStream [mkProof (ProvedBy 9) (PyLogicObject formula)
                             (PySubstitution previous) []]
                    Finished,
           h)))
    RAW true SAFE.

(** The knowledge base of scenario 2 with that prover added. *)
Definition proving_knowledge_base : KnowledgeBase :=
  add_prover cat_knowledge_base dylan_prover.

End examples.

(* ===================================================================== *)
(** ** Notions used by the statements *)
(* ===================================================================== *)

(** The elements among what a task pushed. *)
Definition queue_items {A} (q : list (asynctools.QueueItem A)) : list A :=
  flat_map (fun i => match i with
                     | asynctools.Item a => [a]
                     | asynctools.Pill => []
                     end) q.

(** What is left to push by a task that will finish: nothing, or some
    elements and then the pill. *)
Definition closing {A} (q : list (asynctools.QueueItem A)) : Prop :=
  q = [] \/ exists elements, q = map asynctools.Item elements ++ [asynctools.Pill].

(** The number of producers that still have something to push. *)
Definition live {X} (qs : list (list X)) : nat :=
  length (filter (fun q => match q with [] => false | _ => true end) qs).

Definition is_Blocked (e : Ending) : bool :=
  match e with Blocked => true | _ => false end.

Definition is_Raised (e : Ending) : bool :=
  match e with Raised _ => true | _ => false end.

(** The same listener object with its [safety] attribute set. *)
Definition with_safety (s : HandlerSafety) (l : Listener) : Listener :=
  mkListener (ident l) (listened_formula l) (handler l) (argument_mode l)
             (pure l) s (_language l).

(** The constraint of an argument mode on a bound value, in the words of
    section 6: MAP_UNWRAPPED_REQUIRED refuses a value that is not a wrapper;
    the NO_VARIABLES modes refuse a value that is a variable. *)
Definition violates (mode : HandlerArgumentMode) (bound : Term) : bool :=
  match mode with
  | MAP_UNWRAPPED_REQUIRED =>
      match bound with LogicWrapper _ => false | _ => true end
  | MAP_NO_VARIABLES | MAP_UNWRAPPED_NO_VARIABLES =>
      match bound with Var _ => true | _ => false end
  | _ => false
  end.

Section Reachable.
Context {logic : Library} {storage_class : LogicObjectStorage}
        {index_class : AbstruseIndex}.

(** The knowledge bases a program can hold: built by the constructor and
    changed by the [add_*] methods. *)
Inductive reachable : KnowledgeBase -> Prop :=
| reachable_init (storage : Storage) (h : Heap) :
    reachable (fst (knowledge_base.__init__ storage h))
| reachable_add_formulas kb formulas h :
    reachable kb -> reachable (fst (knowledge_base.add_formulas kb formulas h))
| reachable_add_prover kb prover :
    reachable kb -> reachable (knowledge_base.add_prover kb prover)
| reachable_add_listener kb listener :
    reachable kb -> reachable (knowledge_base.add_listener kb listener).

(** The normalized forms that the loop of [_retrieve] computes for the
    candidates, one after the other. *)
Fixpoint normalized_candidates (language : Language)
    (candidates : list (Term * Metadata)) (h : Heap) : list Term :=
  match candidates with
  | [] => []
  | (expr, _) :: rest =>
      let '((normalized_expr, _), h1) := normalize_variables expr language h in
      normalized_expr :: normalized_candidates language rest h1
  end.

(** The substitutions under which the candidates unify with the goal, one
    for each normalized candidate that does. *)
Definition unifiers_of (goal : Term) (previous : option Substitution)
    (normalized : list Term) : list Substitution :=
  flat_map (fun n => match unify n goal previous with
                     | Some s => [s]
                     | None => []
                     end) normalized.

(** The contract of [search_unifiable] (section 6, a candidate superset):
    the candidates are stored formulas, in the order and number the storage
    holds them, and no stored formula whose normalized form unifies with
    the query is left out. *)
Definition candidate_superset : Prop :=
  forall (store : Storage) (other : Term),
    exists keep : Term -> bool,
      map fst (search_unifiable store other) = filter keep (contents store)
      /\ forall e language h previous,
           In e (contents store) ->
           unify (fst (fst (normalize_variables e language h))) other previous
             <> None ->
           keep e = true.

(** The same contract for one query, over the heaps that a run can be at:
    [fresh] holds of the heaps whose next identities do not clash with the
    identities of the variables of the query. *)
Definition candidate_superset_for (fresh : Heap -> Prop) (store : Storage)
    (language : Language) (other : Term) (previous : option Substitution)
  : Prop :=
  exists keep : Term -> bool,
    map fst (search_unifiable store other) = filter keep (contents store)
    /\ forall e h,
         fresh h ->
         In e (contents store) ->
         unify (fst (fst (normalize_variables e language h))) other previous
           <> None ->
         keep e = true.

(** No prover that the index returns hangs: its stream ends or raises. *)
Definition provers_never_block (kb : KnowledgeBase) : Prop :=
  forall formula prover previous w,
    In prover (knowledge_base.get_provers_for kb formula) ->
    is_Blocked
      (ending (fst (knowledge_base.Prover_prove prover formula previous kb w)))
    = false.

End Reachable.

(** [xs] occurs in [ys] in the same order, possibly with other elements in
    between. *)
Inductive subsequence {A : Type} : list A -> list A -> Prop :=
| subsequence_nil : forall ys, subsequence [] ys
| subsequence_keep : forall x xs ys,
    subsequence xs ys -> subsequence (x :: xs) (x :: ys)
| subsequence_skip : forall y xs ys,
    subsequence xs ys -> subsequence xs (y :: ys).

(** The shapes of items that the loop of [Listener.ponder] accepts, as its
    error message lists them: LogicObjects, (formula, substitution) pairs,
    (formula, substitution, Proof/Proofs) triples, [FormulaSubstitution] and
    [FormulaSubstitutionPremises] instances. *)
Definition accepted_shape (item : PyValue) : bool :=
  match item with
  | PyLogicObject _ => true
  | PyFormulaSubstitution _ _ => true
  | PyFormulaSubstitutionPremises _ _ _ => true
  | PyTuple elements =>
      Nat.eqb (length elements) 2 || Nat.eqb (length elements) 3
  | _ => false
  end.

(** An item written with tuples only: a record becomes the pair or triple of
    its fields, and premises given as one proof become a 1-tuple. *)
Definition as_tuple (item : PyValue) : PyValue :=
  match item with
  | PyFormulaSubstitution formula substitution =>
      PyTuple [formula; substitution]
  | PyFormulaSubstitutionPremises formula substitution premises =>
      PyTuple [formula; substitution;
               if is_Proof premises then PyTuple [premises] else premises]
  | PyTuple [conclusion; substitution; premises] =>
      PyTuple [conclusion; substitution;
               if is_Proof premises then PyTuple [premises] else premises]
  | _ => item
  end.

(* ===================================================================== *)
(** ** [aitools/proofs/context.py] *)
(* ===================================================================== *)

Module context.
Section Contextual.

(** The objects held by the context and the items that generators yield. *)
Variable V R : Type.

(** The properties of [Context]: [kb], [predicate_source] and
    [variable_source]. *)
Inductive Attribute :=
| kb
| predicate_source
| variable_source.

(** The values of the three properties in the running thread. *)
Record Context := mkContext {
  context_kb : V;
  context_predicate_source : V;
  context_variable_source : V
}.

Definition getattr (c : Context) (attribute_name : Attribute) : V :=
  match attribute_name with
  | kb => context_kb c
  | predicate_source => context_predicate_source c
  | variable_source => context_variable_source c
  end.

Definition setattr (c : Context) (attribute_name : Attribute) (value : V)
  : Context :=
  match attribute_name with
  | kb => mkContext value (context_predicate_source c) (context_variable_source c)
  | predicate_source => mkContext (context_kb c) value (context_variable_source c)
  | variable_source => mkContext (context_kb c) (context_predicate_source c) value
  end.

(** A generator object: resumed in a context, it runs to its next [yield],
    to its end or to an exception, and leaves a context behind. *)
Inductive Generator :=
| resume_with (next : Context -> Outcome)
with Outcome :=
| Yields (c : Context) (r : R) (rest : Generator)
| Returned (c : Context)
| Raising (c : Context) (e : Exn).

(** The loop of [_wrapper] for a generator function,
    [[
    for r in res:
        setattr(context, attribute_name, previous)
        yield r
        previous = getattr(context, attribute_name)
        setattr(context, attribute_name, value)
    ]]
    entered with the attribute already set to [value]. *)
Fixpoint wrapped_loop (attribute_name : Attribute) (value : V)
    (res : Generator) (previous : V) (c : Context) : Outcome :=
  match res with
  | resume_with next => wrapped_outcome attribute_name value (next c) previous
  end
with wrapped_outcome (attribute_name : Attribute) (value : V)
    (o : Outcome) (previous : V) : Outcome :=
  match o with
  | Yields c' r rest =>
      Yields (setattr c' attribute_name previous) r
             (resume_with
                (fun c'' =>
                   wrapped_loop attribute_name value rest
                                (getattr c'' attribute_name)
                                (setattr c'' attribute_name value)))
  | Returned c' => Returned c'
  | Raising c' e => Raising c' e
  end.

(** [contextual(attribute_name, value)(func)] for a generator function:
    [[
    previous = getattr(context, attribute_name)
    setattr(context, attribute_name, value)
    res = func( *args, **kwargs)
    if is_generator:
        for r in res: ...
    ]]
    [res] is the generator object that the call of [func] creates. *)
Definition contextual_generator (attribute_name : Attribute) (value : V)
    (res : Generator) : Generator :=
  resume_with
    (fun c =>
       wrapped_loop attribute_name value res (getattr c attribute_name)
                    (setattr c attribute_name value)).

(** [contextual(attribute_name, value)(func)] for a function that is no
    generator function:
    [[
    else:
        setattr(context, attribute_name, previous)
        return res
    ]]
    [_wrapper] contains [yield], so the call still gives a generator object;
    [func] runs when that object is first advanced.  [func] is given by the
    context it leaves and the exception it raises, if any. *)
Definition contextual_function (attribute_name : Attribute) (value : V)
    (func : Context -> Context * option Exn) : Generator :=
  resume_with
    (fun c =>
       let previous := getattr c attribute_name in
       match func (setattr c attribute_name value) with
       | (c', None) => Returned (setattr c' attribute_name previous)
       | (c', Some e) => Raising c' e
       end).

(** [for r in generator] by a consumer that leaves the context alone: the
    items, each with the context the consumer finds while it holds the item;
    the context at the end; the exception that ended the loop, if any. *)
Fixpoint iterate (g : Generator) (c : Context)
  : list (R * Context) * Context * option Exn :=
  match g with
  | resume_with next => iterate_outcome (next c)
  end
with iterate_outcome (o : Outcome) : list (R * Context) * Context * option Exn :=
  match o with
  | Yields c' r rest =>
      let '(items, final, raised) := iterate rest c' in
      ((r, c') :: items, final, raised)
  | Returned c' => ([], c', None)
  | Raising c' e => ([], c', Some e)
  end.

(** The body of the generator does not assign the attribute: resumed with
    the attribute at [value], it leaves it at [value]. *)
Fixpoint keeps (attribute_name : Attribute) (value : V) (g : Generator) : Prop :=
  match g with
  | resume_with next =>
      forall c, getattr c attribute_name = value ->
                keeps_outcome attribute_name value (next c)
  end
with keeps_outcome (attribute_name : Attribute) (value : V) (o : Outcome) : Prop :=
  match o with
  | Yields c' r rest =>
      getattr c' attribute_name = value /\ keeps attribute_name value rest
  | Returned c' => getattr c' attribute_name = value
  | Raising c' e => getattr c' attribute_name = value
  end.

End Contextual.
End context.

(* ===================================================================== *)
(** ** Queues and multiplexing *)
(* ===================================================================== *)

Section Multiplexing.
Import asynctools.
Variable A : Type.

Lemma pick_Some :
  forall (X : Type) k (qs : list (list X)) x qs',
    pick k qs = Some (x, qs') ->
    exists pre q post, qs = pre ++ (x :: q) :: post /\ qs' = pre ++ q :: post.
Proof.
  intros X k qs. revert k.
  induction qs as [|q0 rest IH]; intros k x qs' H; simpl in H.
  - discriminate.
  - destruct q0 as [|y q].
    + destruct (pick k rest) as [[z r]|] eqn:E; inversion H; subst.
      destruct (IH _ _ _ E) as (pre & q & post & -> & ->).
      exists ([] :: pre), q, post. auto.
    + destruct k.
      * inversion H; subst. exists [], q, rest. auto.
      * destruct (pick k rest) as [[z r]|] eqn:E; inversion H; subst.
        destruct (IH _ _ _ E) as (pre & q' & post & -> & ->).
        exists ((y :: q) :: pre), q', post. auto.
Qed.

Lemma pick_first_None :
  forall (X : Type) (qs : list (list X)), pick 0 qs = None -> concat qs = [].
Proof.
  induction qs as [|q0 rest IH]; simpl; intros H; auto.
  destruct q0; [|discriminate].
  destruct (pick 0 rest) as [[z r]|]; [discriminate|]. auto.
Qed.

Lemma nothing_left :
  forall qs : list (list (QueueItem A)),
    concat qs = [] -> live qs = 0 /\ concat (map (@queue_items A) qs) = [].
Proof.
  induction qs as [|q rest IH]; simpl; intros H; auto.
  apply app_eq_nil in H. destruct H as [-> H].
  unfold live in *. simpl. auto.
Qed.

Lemma live_app :
  forall (X : Type) (xs ys : list (list X)), live (xs ++ ys) = live xs + live ys.
Proof.
  intros. unfold live. rewrite filter_app, length_app. reflexivity.
Qed.

Lemma total_length_app :
  forall (X : Type) (xs ys : list (list X)),
    total_length (xs ++ ys) = total_length xs + total_length ys.
Proof.
  intros. unfold total_length. rewrite concat_app, length_app. reflexivity.
Qed.

Lemma items_app :
  forall xs ys : list (list (QueueItem A)),
    concat (map (@queue_items A) (xs ++ ys))
    = concat (map (@queue_items A) xs) ++ concat (map (@queue_items A) ys).
Proof.
  intros. rewrite map_app, concat_app. reflexivity.
Qed.

(** One push: the pill of a task that is done, or an element of a task
    that stays alive. *)
Lemma pick_step :
  forall k (qs : list (list (QueueItem A))) x qs',
    Forall (@closing A) qs ->
    pick k qs = Some (x, qs') ->
    Forall (@closing A) qs'
    /\ total_length qs = S (total_length qs')
    /\ ((x = Pill /\ live qs = S (live qs')
         /\ concat (map (@queue_items A) qs) = concat (map (@queue_items A) qs'))
        \/ (exists a n, x = Item a /\ live qs = S n /\ live qs' = S n
            /\ Permutation (concat (map (@queue_items A) qs))
                           (a :: concat (map (@queue_items A) qs')))).
Proof.
  intros k qs x qs' Hc Hp.
  destruct (pick_Some _ _ Hp) as (pre & q & post & -> & ->).
  apply Forall_app in Hc. destruct Hc as [Hpre Hrest].
  inversion Hrest as [|? ? Hq Hpost]; subst.
  assert (Hlen : total_length (pre ++ (x :: q) :: post)
                 = S (total_length (pre ++ q :: post))).
  { rewrite !total_length_app. unfold total_length. simpl.
    rewrite !length_app. simpl. lia. }
  destruct Hq as [Hq|[elements Hq]]; [discriminate|].
  destruct elements as [|a elements]; simpl in Hq; inversion Hq; subst.
  - split; [|split; [exact Hlen|left]].
    + apply Forall_app. split; auto. constructor; auto. left; reflexivity.
    + split; [reflexivity|]. split.
      * rewrite !live_app. unfold live. simpl. lia.
      * rewrite !items_app. simpl. reflexivity.
  - split; [|split; [exact Hlen|right]].
    + apply Forall_app. split; auto. constructor; auto.
      right. exists elements. reflexivity.
    + exists a, (live pre + live post). split; [reflexivity|].
      assert (Hne : live [map Item elements ++ [@Pill A]] = 1).
      { unfold live. simpl. destruct (map Item elements ++ [Pill]) eqn:E.
        - destruct elements; discriminate.
        - reflexivity. }
      split; [|split].
      * change ((Item a :: map Item elements ++ [Pill]) :: post)
          with ([Item a :: map Item elements ++ [Pill]] ++ post).
        rewrite !live_app. unfold live at 2. simpl. lia.
      * change ((map Item elements ++ [Pill]) :: post)
          with ([map Item elements ++ [Pill]] ++ post).
        rewrite !live_app, Hne. lia.
      * rewrite !items_app. simpl.
        apply Permutation_sym, Permutation_middle.
Qed.

(** The consumer of [multiplex], run against any interleaving of tasks
    that all finish, ends and yields the elements of all of them. *)
Lemma consume_interleave :
  forall fuel sched (qs : list (list (QueueItem A))),
    Forall (@closing A) qs ->
    total_length qs <= fuel ->
    ending (consume (interleave fuel sched qs) (live qs)) = Finished
    /\ Permutation (yielded (consume (interleave fuel sched qs) (live qs)))
                   (concat (map (@queue_items A) qs)).
Proof.
  induction fuel as [|fuel IH]; intros sched qs Hc Hlen.
  - assert (H0 : concat qs = []).
    { unfold total_length in Hlen. destruct (concat qs); simpl in *; [auto|lia]. }
    destruct (nothing_left _ H0) as [-> ->]. simpl. auto.
  - assert (Hstep : forall k x qs',
               pick k qs = Some (x, qs') ->
               ending (consume (x :: interleave fuel (tl sched) qs') (live qs))
               = Finished
               /\ Permutation
                    (yielded (consume (x :: interleave fuel (tl sched) qs') (live qs)))
                    (concat (map (@queue_items A) qs))).
    { intros k x qs' Hp.
      destruct (pick_step _ Hc Hp) as (Hc' & Hl & Hcase).
      assert (Hlen' : total_length qs' <= fuel) by lia.
      destruct (IH (tl sched) qs' Hc' Hlen') as [He Hperm].
      destruct Hcase as [(-> & Hlive & Hitems)|(a & n & -> & Hlive & Hlive' & Hp')].
      - rewrite Hlive, Hitems. simpl. auto.
      - rewrite Hlive. rewrite Hlive' in He, Hperm. simpl. split; [exact He|].
        eapply Permutation_trans; [|apply Permutation_sym; exact Hp'].
        constructor. exact Hperm. }
    simpl. destruct (pick (hd 0 sched) qs) as [[x qs']|] eqn:E1.
    + eapply Hstep; eauto.
    + destruct (pick 0 qs) as [[x qs']|] eqn:E2.
      * eapply Hstep; eauto.
      * destruct (nothing_left _ (pick_first_None _ E2)) as [-> ->]. simpl. auto.
Qed.

Lemma collect_closing :
  forall g : Stream A,
    is_Blocked (ending g) = false ->
    pushed (collect g) = map Item (yielded g) ++ [Pill].
Proof.
  intros g H. unfold collect. destruct (ending g); simpl in *; auto; discriminate.
Qed.

Lemma queue_items_pushed :
  forall elements : list A,
    queue_items (map Item elements ++ [Pill]) = elements.
Proof.
  induction elements as [|a rest IH]; simpl; auto.
  unfold queue_items in *. simpl. rewrite IH. reflexivity.
Qed.

(** [multiplex] over generators none of which blocks: the stream ends
    normally, whatever the generators did, and yields what they yielded. *)
Lemma multiplex_finishes :
  forall sched (generators : list (Stream A)),
    forallb (fun g => negb (is_Blocked (ending g))) generators = true ->
    ending (multiplex sched generators) = Finished
    /\ Permutation (yielded (multiplex sched generators))
                   (concat (map (@yielded A) generators)).
Proof.
  intros sched generators Hnb.
  rewrite forallb_forall in Hnb.
  set (qs := map (@pushed A) (map (@collect A) generators)).
  assert (Hqs : forall g, In g generators ->
                          pushed (collect g) = map Item (yielded g) ++ [Pill]).
  { intros g Hg. apply collect_closing. specialize (Hnb g Hg).
    destruct (is_Blocked (ending g)); simpl in *; auto; discriminate. }
  assert (Hc : Forall (@closing A) qs).
  { unfold qs. rewrite map_map. apply Forall_forall. intros q Hq.
    apply in_map_iff in Hq. destruct Hq as (g & <- & Hg).
    right. exists (yielded g). auto. }
  assert (Hlive : live qs = length generators).
  { unfold qs. rewrite map_map. clear Hc qs Hnb.
    induction generators as [|g rest IH]; [reflexivity|].
    unfold live in *. simpl. rewrite (Hqs g) by (left; reflexivity).
    destruct (map Item (yielded g) ++ [Pill]) eqn:E.
    - destruct (yielded g); discriminate.
    - simpl. rewrite IH; auto. intros; apply Hqs; right; auto. }
  assert (Hitems : concat (map (@queue_items A) qs)
                   = concat (map (@yielded A) generators)).
  { unfold qs. rewrite !map_map. clear Hc Hlive qs Hnb.
    induction generators as [|g rest IH]; [reflexivity|].
    simpl. rewrite (Hqs g) by (left; reflexivity).
    rewrite queue_items_pushed, IH; auto. intros; apply Hqs; right; auto. }
  unfold multiplex, queue_trace. fold qs.
  rewrite <- Hlive, <- Hitems.
  apply consume_interleave; auto.
Qed.

Lemma drain_pushed :
  forall (elements : list A) rest,
    drain (map Item elements ++ Pill :: rest) = mkStream elements Finished.
Proof.
  induction elements as [|a more IH]; intros rest; simpl; auto.
  rewrite IH. reflexivity.
Qed.

Lemma drain_no_pill :
  forall elements : list A,
    drain (map Item elements) = mkStream elements Blocked.
Proof.
  induction elements as [|a more IH]; simpl; auto.
  rewrite IH. reflexivity.
Qed.

(** When no wake-up is lost the calling thread is handed what the
    generator yields, and the iteration then returns, also when the
    generator raised. *)
Lemma hand_over_spec :
  forall g : Stream A,
    hand_over g
    = mkStream (yielded g) (if is_Blocked (ending g) then Blocked else Finished).
Proof.
  intros g. unfold hand_over, collect.
  destruct (ending g); simpl;
    rewrite ?drain_pushed, ?drain_no_pill; reflexivity.
Qed.

(** With [buffer_size=0] no wake-up can be lost. *)
Lemma schedule_generator_spec :
  forall lost_wakeup (g : Stream A),
    schedule_generator 0 lost_wakeup g
    = mkStream (yielded g) (if is_Blocked (ending g) then Blocked else Finished).
Proof.
  intros lost_wakeup g. unfold schedule_generator. apply hand_over_spec.
Qed.


(** A wake-up is lost only to a [get_nowait], which never takes the first
    element. *)
Lemma schedule_generator_short :
  forall buffer_size lost_wakeup (g : Stream A),
    Nat.leb (length (yielded g)) 1 = true ->
    schedule_generator buffer_size lost_wakeup g
    = mkStream (yielded g) (if is_Blocked (ending g) then Blocked else Finished).
Proof.
  intros [|buffer_size] [n|] g Hlen; unfold schedule_generator;
    try apply hand_over_spec.
  apply Nat.leb_le in Hlen.
  destruct (Nat.leb 2 n && Nat.leb n (length (yielded g))) eqn:E;
    [|apply hand_over_spec].
  apply andb_prop in E. destruct E as [E1 E2].
  apply Nat.leb_le in E1. apply Nat.leb_le in E2. lia.
Qed.

(** Whatever the buffer and the fate of the wake-ups, the calling thread
    gets the first elements of the generator, in order, and no exception. *)
Lemma schedule_generator_cases :
  forall buffer_size lost_wakeup (g : Stream A),
    schedule_generator buffer_size lost_wakeup g
    = mkStream (yielded g) (if is_Blocked (ending g) then Blocked else Finished)
    \/ exists n,
         buffer_size <> 0 /\ lost_wakeup = Some n
         /\ 2 <= n <= length (yielded g)
         /\ schedule_generator buffer_size lost_wakeup g
            = mkStream (firstn n (yielded g)) Blocked.
Proof.
  intros [|buffer_size] [n|] g; unfold schedule_generator;
    try (left; apply hand_over_spec).
  destruct (Nat.leb 2 n && Nat.leb n (length (yielded g))) eqn:E;
    [|left; apply hand_over_spec].
  apply andb_prop in E. destruct E as [E1 E2].
  apply Nat.leb_le in E1. apply Nat.leb_le in E2.
  right. exists n. repeat split; auto.
Qed.

End Multiplexing.

(* ===================================================================== *)
(** ** Multiplexing under the engine's state *)
(* ===================================================================== *)

Section SmallMultiplex.
Variable A : Type.

(** When the generators yield at most one element between them, the
    schedule cannot be observed. *)
Lemma multiplex_at_most_one :
  forall sched (generators : list (Stream A)),
    forallb (fun g => negb (is_Blocked (ending g))) generators = true ->
    length (concat (map (@yielded A) generators)) <= 1 ->
    asynctools.multiplex sched generators
    = mkStream (concat (map (@yielded A) generators)) Finished.
Proof.
  intros sched generators Hnb Hlen.
  destruct (multiplex_finishes sched generators Hnb) as [He Hp].
  destruct (asynctools.multiplex sched generators) as [ys e].
  simpl in *. subst e. f_equal.
  destruct (concat (map (@yielded A) generators)) as [|x [|y rest]].
  - apply Permutation_sym, Permutation_nil in Hp. exact Hp.
  - apply Permutation_sym, Permutation_length_1_inv in Hp. exact Hp.
  - simpl in Hlen. lia.
Qed.

Lemma multiplex_small :
  forall (generators : list (Stream A)) w,
    forallb (fun g => negb (is_Blocked (ending g))) generators = true ->
    Nat.leb (length (concat (map (@yielded A) generators))) 1 = true ->
    multiplex generators w
    = (mkStream (concat (map (@yielded A) generators)) Finished,
       mkWorld (heap w)
         (skipn (asynctools.total_length
                   (map (fun g => asynctools.pushed (asynctools.collect g)) generators))
                (choices w))).
Proof.
  intros generators w Hnb Hlen. unfold multiplex.
  rewrite multiplex_at_most_one; auto.
  apply Nat.leb_le. exact Hlen.
Qed.

End SmallMultiplex.

(* ===================================================================== *)
(** ** Ponder modes, reentrancy and the safety gate *)
(* ===================================================================== *)

Section Guards.
Context {logic : Library} {storage_class : LogicObjectStorage}
        {index_class : AbstruseIndex}.
Import knowledge_base.

(** C5.  Iterating [ponder] with [ponder_mode=HYPOTHETICALLY], or with a
    value that is no member of [PonderMode], raises [NotImplementedError]
    before any proof is yielded and before anything is allocated or
    scheduled. *)
Theorem ponder_mode_not_implemented :
  forall depth_first fuel lost_wakeup (kb : KnowledgeBase) formulas w,
    ponder depth_first fuel lost_wakeup kb formulas (Mode HYPOTHETICALLY) w
    = (Some (mkStream [] (Raised NotImplementedError)), w)
    /\ forall repr,
         ponder depth_first fuel lost_wakeup kb formulas (NotAMode repr) w
         = (Some (mkStream [] (Raised NotImplementedError)), w).
Proof.
  intros. split; [|intros repr]; reflexivity.
Qed.

Lemma prove_outside_loop :
  forall (kb : KnowledgeBase) formula retrieve_only previous w,
    fst (prove asynctools.NoRunningLoop kb formula retrieve_only previous w)
    = asynctools.schedule_generator 0 None
        (fst (_prepare_proof_sources kb formula retrieve_only previous w)).
Proof.
  intros. unfold prove, bind, ret. simpl.
  destruct (_prepare_proof_sources kb formula retrieve_only previous w).
  reflexivity.
Qed.

(** C6, as amended.  [prove] raises [RuntimeError], yielding nothing,
    wherever [asyncio.current_task()] does not raise: inside a task and
    also in a callback that a running event loop invokes outside of any
    task.  Where no event loop runs, [prove] does not raise. *)
Theorem prove_refuses_where_a_loop_runs :
  forall (kb : KnowledgeBase) formula retrieve_only previous w,
    prove asynctools.InsideTask kb formula retrieve_only previous w
    = (mkStream [] (Raised RuntimeError), w)
    /\ prove asynctools.LoopCallback kb formula retrieve_only previous w
       = (mkStream [] (Raised RuntimeError), w)
    /\ is_Raised
         (ending (fst (prove asynctools.NoRunningLoop kb formula retrieve_only
                             previous w)))
       = false.
Proof.
  intros. split; [reflexivity|]. split; [reflexivity|].
  rewrite prove_outside_loop, schedule_generator_spec. simpl.
  destruct (is_Blocked _); reflexivity.
Qed.

Lemma emit_with_safety :
  forall s (self : Listener) formula unifier items stop proof,
    listeners.emit (with_safety s self) formula unifier items stop proof
    = listeners.emit self formula unifier items stop proof.
Proof.
  intros s self formula unifier items stop.
  induction items as [|item rest IH]; intros proof; simpl; auto.
  destruct (listeners.read_item unifier item) as [e|[[c sub] prem]]; auto.
  destruct (ending (listeners.iterate prem)); auto.
  rewrite IH. reflexivity.
Qed.

Lemma ponder_with_safety :
  forall s (self : Listener) (kb : KnowledgeBase) proof h,
    listeners.ponder (with_safety s self) proof kb h
    = listeners.ponder self proof kb h.
Proof.
  intros. unfold listeners.ponder, listeners.safety_gate, is_hypothetical.
  simpl.
  destruct (normalize_variables (listened_formula self) (_language self) h)
    as [[normalized mapping] h'].
  destruct (listeners.unify_fields (conclusion proof) normalized (substitution proof))
    as [e|[unifier|]]; auto.
  unfold listeners._extract_args_by_name. simpl.
  destruct (match argument_mode self with
            | RAW => _
            | _ => _
            end) as [e|kwargs]; auto.
  unfold listeners.fire. simpl.
  destruct (handler self kwargs) as [result|e]; auto.
  destruct (match result with PyCoroutine r => r | _ => result end); auto;
    rewrite emit_with_safety; reflexivity.
Qed.

(** C8.  [is_hypothetical] returns false for every knowledge base, so the
    guard of [Listener.ponder] never raises [UnsafeOperationException],
    and a listener ponders the same whether its safety is TOTALLY_UNSAFE
    or SAFE. *)
Theorem safety_gate_is_a_no_op :
  forall (self : Listener) (kb : KnowledgeBase) (proof : Proof) (h : Heap),
    is_hypothetical kb = false
    /\ listeners.safety_gate self kb = None
    /\ listeners.ponder (with_safety TOTALLY_UNSAFE self) proof kb h
       = listeners.ponder (with_safety SAFE self) proof kb h.
Proof.
  intros. split; [reflexivity|]. split; [reflexivity|].
  rewrite !ponder_with_safety. reflexivity.
Qed.

End Guards.

(* ===================================================================== *)
(** ** Listener firing *)
(* ===================================================================== *)

Section Firing.
Context {logic : Library} {storage_class : LogicObjectStorage}
        {index_class : AbstruseIndex}.
Import listeners.

(** Every proof of a firing names the listener and the triggering formula
    as its rule. *)
Lemma emit_inference_rule :
  forall (self : Listener) formula unifier items stop proof,
    Forall (fun p => inference_rule p = Pondering (ident self) formula)
           (yielded (emit self formula unifier items stop proof)).
Proof.
  intros self formula unifier items stop.
  induction items as [|item rest IH]; intros proof; simpl; auto.
  destruct (read_item unifier item) as [e|[[c s] prem]]; simpl; auto.
  destruct (ending (iterate prem)); simpl; auto.
Qed.

(** The first premise of every proof of a firing: the triggering proof for
    the first one, and for each later one the proof yielded just before
    it. *)
Lemma emit_first_premises :
  forall (self : Listener) formula unifier items stop proof,
    map (fun p => hd PyNone (premises p))
        (yielded (emit self formula unifier items stop proof))
    = map PyProof
          (removelast (proof :: yielded (emit self formula unifier items stop proof))).
Proof.
  intros self formula unifier items stop.
  induction items as [|item rest IH]; intros proof; simpl; auto.
  destruct (read_item unifier item) as [e|[[c s] prem]]; simpl; auto.
  destruct (ending (iterate prem)); simpl; auto.
  rewrite IH. simpl. reflexivity.
Qed.

Lemma emit_terms :
  forall (self : Listener) formula unifier items proof,
    forallb is_LogicObject items = true ->
    ending (emit self formula unifier items Finished proof) = Finished
    /\ map conclusion (yielded (emit self formula unifier items Finished proof))
       = items
    /\ Forall (fun p => substitution p = PySubstitution unifier
                        /\ length (premises p) = 1)
              (yielded (emit self formula unifier items Finished proof)).
Proof.
  intros self formula unifier items.
  induction items as [|item rest IH]; intros proof Hall; simpl in *; auto.
  apply andb_prop in Hall. destruct Hall as [Hitem Hrest].
  destruct item; try discriminate. simpl.
  destruct (IH (mkProof (Pondering (ident self) formula) (PyLogicObject t)
                        (PySubstitution unifier) [PyProof proof]) Hrest)
    as (He & Hc & Hs).
  split; [exact He|]. split; [rewrite Hc; reflexivity|].
  constructor; auto.
Qed.



(** The test on all elements being terms is made on the value the handler
    returns, not on the items of a generator: an item that is a pair of terms
    is read as (conclusion, substitution). *)
Lemma yielded_pair_of_terms_is_read_as_pair :
  forall (self : Listener) formula unifier c s proof,
    yielded (emit self formula unifier
                  [PyTuple [PyLogicObject c; PyLogicObject s]] Finished proof)
    = [mkProof (Pondering (ident self) formula) (PyLogicObject c)
               (PyLogicObject s) [PyProof proof]].
Proof. reflexivity. Qed.

Lemma marshal_refuses :
  forall mode bound, violates mode bound = true -> marshal mode bound = inl ValueError.
Proof.
  intros mode bound H. destruct mode, bound; simpl in *; auto; discriminate.
Qed.

Lemma marshal_only_refuses :
  forall mode bound e, marshal mode bound = inl e -> e = ValueError.
Proof.
  intros mode bound e H. destruct mode, bound; simpl in *; congruence.
Qed.

Lemma marshal_all_only_refuses :
  forall mode unifier mapping e,
    marshal_all mode unifier mapping = inl e -> e = ValueError.
Proof.
  intros mode unifier mapping.
  induction mapping as [|[source fresh] rest IH]; intros e H; simpl in H.
  - discriminate.
  - destruct (marshal mode (get_bound_object_for unifier fresh)) eqn:Em.
    + inversion H; subst. eapply marshal_only_refuses; eauto.
    + destruct (marshal_all mode unifier rest) eqn:Er.
      * inversion H; subst. apply IH. reflexivity.
      * destruct (var_name source); discriminate.
Qed.

Lemma marshal_all_refuses :
  forall mode unifier mapping,
    Exists (fun entry =>
              violates mode (get_bound_object_for unifier (snd entry)) = true)
           mapping ->
    marshal_all mode unifier mapping = inl ValueError.
Proof.
  intros mode unifier mapping H.
  induction H as [[source fresh] rest Hv|[source fresh] rest Hrest IH]; simpl in *.
  - rewrite (marshal_refuses _ _ Hv). reflexivity.
  - destruct (marshal mode (get_bound_object_for unifier fresh)) eqn:Em.
    + f_equal. eapply marshal_only_refuses; eauto.
    + rewrite IH. reflexivity.
Qed.

(** C7.  When the listened formula unifies with the triggering proof and
    the value bound to some variable of the trigger violates the
    constraint of the listener's argument mode, [Listener.ponder] yields
    no proof and ends without an error. *)
Theorem refused_arguments_yield_nothing :
  forall (self : Listener) (proof : Proof) (kb : KnowledgeBase) (h : Heap)
         normalized mapping h' unifier,
    normalize_variables (listened_formula self) (_language self) h
    = ((normalized, mapping), h') ->
    unify_fields (conclusion proof) normalized (substitution proof)
    = inr (Some unifier) ->
    Exists (fun entry =>
              violates (argument_mode self)
                       (get_bound_object_for unifier (snd entry)) = true)
           mapping ->
    ponder self proof kb h = (mkStream [] Finished, h').
Proof.
  intros self proof kb h normalized mapping h' unifier Hn Hu Hv.
  unfold ponder, safety_gate, is_hypothetical. simpl.
  rewrite Hn, Hu. unfold _extract_args_by_name.
  pose proof (marshal_all_refuses _ _ Hv) as Hm.
  destruct (argument_mode self) eqn:Emode; try (rewrite Hm; reflexivity).
  (* RAW has no constraint *)
  exfalso. clear - Hv.
  induction Hv as [entry rest Hv|entry rest Hv IH]; [discriminate|exact IH].
Qed.

End Firing.

(* ===================================================================== *)
(** ** The knowledge retriever *)
(* ===================================================================== *)

Section Retrieval.
Context {logic : Library} {storage_class : LogicObjectStorage}
        {index_class : AbstruseIndex}.
Import knowledge_base.

Lemma retrieve_loop_unifiers :
  forall language goal previous candidates h,
    fst (retrieve_loop language goal previous candidates h)
    = unifiers_of goal previous (normalized_candidates language candidates h).
Proof.
  intros language goal previous candidates.
  induction candidates as [|[expr meta] rest IH]; intros h; simpl; auto.
  destruct (normalize_variables expr language h) as [[normalized mapping] h1].
  specialize (IH h1).
  destruct (retrieve_loop language goal previous rest h1) as [more h2].
  simpl in *. rewrite <- IH.
  destruct (unify normalized goal previous); reflexivity.
Qed.

Lemma candidate_is_normalized :
  forall language candidates h e,
    In e (map fst candidates) ->
    exists h1,
      In (fst (fst (normalize_variables e language h1)))
         (normalized_candidates language candidates h).
Proof.
  intros language candidates.
  induction candidates as [|[expr meta] rest IH]; intros h e Hin; simpl in *.
  - contradiction.
  - destruct (normalize_variables expr language h) as [[normalized mapping] h1] eqn:En.
    destruct Hin as [->|Hin].
    + exists h. rewrite En. left. reflexivity.
    + destruct (IH h1 e Hin) as [h2 H2]. exists h2. right. exact H2.
Qed.

(** The retriever is set by the constructor and never replaced. *)
Lemma reachable_retriever :
  forall kb : KnowledgeBase,
    reachable kb ->
    exists language k,
      knowledge_retriever kb
      = mkProver (S k) (Var (mkVar language None k)) retrieve_knowledge RAW
                 false SAFE.
Proof.
  intros kb H. induction H as [storage h|kb formulas h H IH|kb p H IH|kb l H IH].
  - exists h, (S h). reflexivity.
  - destruct IH as (language & k & IH). exists language, k.
    unfold add_formulas. destruct (normalize_all _ _ _). exact IH.
  - exact IH.
  - exact IH.
Qed.

Lemma retriever_stream :
  forall (kb : KnowledgeBase) goal previous w,
    prover_handler (knowledge_retriever kb) = retrieve_knowledge ->
    fst (Prover_prove (knowledge_retriever kb) goal previous kb w)
    = mkStream
        (map (proof_of (knowledge_retriever kb) goal)
             (unifiers_of goal (Some previous)
                (normalized_candidates (kb_language kb)
                   (search_unifiable (_storage kb) goal) (heap w))))
        Finished.
Proof.
  intros kb goal previous w Hh. unfold Prover_prove. rewrite Hh.
  unfold allocating, _retrieve.
  rewrite <- retrieve_loop_unifiers.
  destruct (retrieve_loop _ _ _ _ _). reflexivity.
Qed.

Lemma candidate_is_normalized_fresh :
  forall (fresh : Heap -> Prop) language candidates,
    (forall e h, In e (map fst candidates) -> fresh h ->
                 fresh (snd (normalize_variables e language h))) ->
    forall h e,
      fresh h ->
      In e (map fst candidates) ->
      exists h1,
        fresh h1
        /\ In (fst (fst (normalize_variables e language h1)))
              (normalized_candidates language candidates h).
Proof.
  intros fresh language candidates.
  induction candidates as [|[expr meta] rest IH]; intros Hstep h e Hh Hin;
    simpl in *.
  - contradiction.
  - pose proof (Hstep expr h (or_introl eq_refl) Hh) as Hh1.
    destruct (normalize_variables expr language h) as [[normalized mapping] h1] eqn:En.
    simpl in Hh1.
    destruct Hin as [->|Hin].
    + exists h. rewrite En. split; [exact Hh|]. left. reflexivity.
    + destruct (IH (fun e0 h0 He0 => Hstep e0 h0 (or_intror He0)) h1 e Hh1 Hin)
        as (h2 & Hh2 & H2).
      exists h2. split; [exact Hh2|]. right. exact H2.
Qed.

Lemma normalized_is_candidate :
  forall language candidates h n,
    In n (normalized_candidates language candidates h) ->
    exists e h1,
      In e (map fst candidates)
      /\ n = fst (fst (normalize_variables e language h1)).
Proof.
  intros language candidates.
  induction candidates as [|[expr meta] rest IH]; intros h n Hin; simpl in *.
  - contradiction.
  - destruct (normalize_variables expr language h) as [[normalized mapping] h1] eqn:En.
    destruct Hin as [<-|Hin].
    + exists expr, h. rewrite En. split; [left|]; reflexivity.
    + destruct (IH h1 n Hin) as (e & h2 & He & Hn).
      exists e, h2. split; [right; exact He|exact Hn].
Qed.

(** C1.  The constructor gives every knowledge base a retriever whose
    listened formula is one variable that did not exist before, and whose
    [pure] flag is false; no method replaces it.  For every goal and
    previous substitution the retriever yields exactly one proof for each
    candidate of the storage whose normalized form unifies with the goal
    under the previous substitution, in the order of the candidates.
    With a storage that keeps its contract, every proof comes from a stored
    formula, and every stored formula that unifies with the goal is the
    source of one of the proofs.  A stored formula may hold variables: it
    unifies with the goal when its normalized form does at the heaps that a
    run can be at, those whose new identities do not clash with the
    variables of the goal. *)
Theorem knowledge_retriever_retrieves :
  forall (kb : KnowledgeBase) (goal : Term) (previous : Substitution)
         (w : World),
    reachable kb ->
    let retriever := knowledge_retriever kb in
    let out := fst (Prover_prove retriever goal previous kb w) in
    (forall storage h,
        exists v,
          prover_listened_formula (knowledge_retriever (fst (__init__ storage h)))
          = Var v
          /\ h <= var_ident v < snd (__init__ storage h))
    /\ (exists v, prover_listened_formula retriever = Var v)
    /\ prover_pure retriever = false
    /\ out = mkStream
               (map (proof_of retriever goal)
                    (unifiers_of goal (Some previous)
                       (normalized_candidates (kb_language kb)
                          (search_unifiable (_storage kb) goal) (heap w))))
               Finished
    /\ (forall fresh : Heap -> Prop,
           fresh (heap w) ->
           (forall e h,
               In e (contents (_storage kb)) -> fresh h ->
               fresh (snd (normalize_variables e (kb_language kb) h))) ->
           candidate_superset_for fresh (_storage kb) (kb_language kb) goal
                                  (Some previous) ->
           (forall p,
               In p (yielded out) ->
               exists e h s,
                 In e (contents (_storage kb))
                 /\ unify (fst (fst (normalize_variables e (kb_language kb) h)))
                          goal (Some previous) = Some s
                 /\ p = proof_of retriever goal s)
           /\ (forall e,
                  In e (contents (_storage kb)) ->
                  (forall h,
                      fresh h ->
                      unify (fst (fst (normalize_variables e (kb_language kb) h)))
                            goal (Some previous) <> None) ->
                  exists h s,
                    fresh h
                    /\ unify (fst (fst (normalize_variables e (kb_language kb) h)))
                             goal (Some previous) = Some s
                    /\ In (proof_of retriever goal s) (yielded out))).
Proof.
  intros kb goal previous w Hreach retriever out.
  destruct (reachable_retriever Hreach) as (language & k & Hretr).
  assert (Hh : prover_handler (knowledge_retriever kb) = retrieve_knowledge).
  { rewrite Hretr. reflexivity. }
  assert (Hout : out = mkStream
               (map (proof_of retriever goal)
                    (unifiers_of goal (Some previous)
                       (normalized_candidates (kb_language kb)
                          (search_unifiable (_storage kb) goal) (heap w))))
               Finished).
  { unfold out, retriever. apply retriever_stream. exact Hh. }
  split.
  { intros storage h. exists (mkVar h None (S h)). simpl. split; [reflexivity|lia]. }
  split.
  { unfold retriever. rewrite Hretr. simpl. eauto. }
  split.
  { unfold retriever. rewrite Hretr. reflexivity. }
  split; [exact Hout|].
  intros fresh Hw Hstep (keep & Hkeep & Hall).
  split.
  - intros p Hp. rewrite Hout in Hp. simpl in Hp.
    apply in_map_iff in Hp. destruct Hp as (s & <- & Hs).
    unfold unifiers_of in Hs. apply in_flat_map in Hs.
    destruct Hs as (n & Hn & Hs).
    destruct (normalized_is_candidate _ _ _ _ Hn) as (e & h1 & He & ->).
    rewrite Hkeep in He. apply filter_In in He. destruct He as [He _].
    exists e, h1, s. split; [exact He|]. split; [|reflexivity].
    destruct (unify _ goal (Some previous)) as [s0|]; [|contradiction].
    destruct Hs as [->|[]]. reflexivity.
  - intros e He Hunifies.
    assert (Hcand : In e (map fst (search_unifiable (_storage kb) goal))).
    { rewrite Hkeep. apply filter_In. split; [exact He|].
      apply (Hall e (heap w) Hw He). apply Hunifies. exact Hw. }
    destruct (@candidate_is_normalized_fresh fresh (kb_language kb)
                (search_unifiable (_storage kb) goal)) with (h := heap w) (e := e)
      as (h1 & Hh1 & Hnorm); auto.
    { intros e0 h0 He0 Hh0. apply Hstep; [|exact Hh0].
      rewrite Hkeep in He0. apply filter_In in He0. apply He0. }
    specialize (Hunifies h1 Hh1).
    destruct (unify (fst (fst (normalize_variables e (kb_language kb) h1))) goal
                    (Some previous)) as [s|] eqn:Eu; [|congruence].
    exists h1, s. split; [exact Hh1|]. split; [exact Eu|].
    rewrite Hout. simpl. apply in_map. unfold unifiers_of.
    apply in_flat_map. eexists. split; [exact Hnorm|].
    rewrite Eu. left. reflexivity.
Qed.

End Retrieval.

(* ===================================================================== *)
(** ** What KNOWN mode feeds to the listeners *)
(* ===================================================================== *)

Section KnownMode.
Context {logic : Library} {storage_class : LogicObjectStorage}
        {index_class : AbstruseIndex}.
Import knowledge_base.

Lemma sequence_Forall :
  forall A (P : A -> Prop) (cs : list (M A)),
    Forall (fun c => forall w, P (fst (c w))) cs ->
    forall w, Forall P (fst (sequence cs w)).
Proof.
  intros A P cs H. induction H as [|c rest Hc Hrest IH]; intros w; simpl.
  - constructor.
  - unfold bind, ret. specialize (Hc w). destruct (c w) as [a w1].
    specialize (IH w1). destruct (sequence rest w1) as [more w2].
    simpl in *. constructor; assumption.
Qed.

Lemma multiplex_Forall :
  forall A (P : A -> Prop) (generators : list (Stream A)) w,
    Forall (fun g => ending g = Finished /\ Forall P (yielded g)) generators ->
    ending (fst (multiplex generators w)) = Finished
    /\ Forall P (yielded (fst (multiplex generators w))).
Proof.
  intros A P generators w H. unfold multiplex. simpl.
  assert (Hnb : forallb (fun g => negb (is_Blocked (ending g))) generators = true).
  { apply forallb_forall. intros g Hg.
    rewrite Forall_forall in H. destruct (H g Hg) as [-> _]. reflexivity. }
  destruct (multiplex_finishes (choices w) generators Hnb) as [He Hp].
  split; [exact He|].
  apply Forall_forall. intros x Hx.
  apply (Permutation_in _ Hp) in Hx.
  apply in_concat in Hx. destruct Hx as (ys & Hys & Hx).
  apply in_map_iff in Hys. destruct Hys as (g & <- & Hg).
  rewrite Forall_forall in H. destruct (H g Hg) as [_ HP].
  rewrite Forall_forall in HP. apply HP. exact Hx.
Qed.

(** With [retrieve_only=True], and so in KNOWN mode, every proof that is
    handed to the listeners was yielded by the knowledge retriever. *)
Lemma known_mode_proves_by_retrieval_only :
  forall (kb : KnowledgeBase) formulas make w,
    reachable kb ->
    __make_proving_process kb formulas (Mode KNOWN) = inr make ->
    ending (fst (make w)) = Finished
    /\ Forall (fun p => inference_rule p
                        = ProvedBy (prover_ident (knowledge_retriever kb)))
              (yielded (fst (make w))).
Proof.
  intros kb formulas make w Hreach Hmake.
  destruct (reachable_retriever Hreach) as (language & k & Hretr).
  assert (Hh : prover_handler (knowledge_retriever kb) = retrieve_knowledge).
  { rewrite Hretr. reflexivity. }
  simpl in Hmake. inversion Hmake; subst make; clear Hmake.
  set (P := fun p => inference_rule p
                     = ProvedBy (prover_ident (knowledge_retriever kb))).
  assert (Hsource : forall f w0,
             ending (fst (async_prove asynctools.InsideTask kb f true None w0))
             = Finished
             /\ Forall P (yielded (fst (async_prove asynctools.InsideTask kb f
                                                     true None w0)))).
  { intros f w0. unfold async_prove. simpl.
    unfold _prepare_proof_sources, proof_sources. simpl.
    unfold bind, ret.
    pose proof (retriever_stream kb f empty_substitution w0 Hh) as Hs.
    destruct (Prover_prove (knowledge_retriever kb) f empty_substitution kb w0)
      as [stream w1].
    simpl in Hs. apply multiplex_Forall. constructor; [|constructor].
    rewrite Hs. simpl. split; [reflexivity|].
    apply Forall_forall. intros p Hp. apply in_map_iff in Hp.
    destruct Hp as (s0 & <- & _). reflexivity. }
  unfold bind.
  pose proof (@sequence_Forall _
                (fun g => ending g = Finished /\ Forall P (yielded g))
                (proving_sources kb formulas true)) as Hseq.
  assert (Hall : Forall (fun c : M (Stream Proof) =>
                           forall w0, ending (fst (c w0)) = Finished
                                      /\ Forall P (yielded (fst (c w0))))
                        (proving_sources kb formulas true)).
  { unfold proving_sources. apply Forall_forall. intros c Hc.
    apply in_map_iff in Hc. destruct Hc as (f & <- & _). intros w0.
    apply Hsource. }
  specialize (Hseq Hall w).
  destruct (sequence (proving_sources kb formulas true) w) as [sources w1].
  simpl in Hseq. apply multiplex_Forall. exact Hseq.
Qed.

End KnownMode.

(* ===================================================================== *)
(** ** Exceptions of producers *)
(* ===================================================================== *)

Section Swallowing.
Variable A : Type.

Lemma consume_never_raises :
  forall (trace : list (asynctools.QueueItem A)) count,
    is_Raised (ending (asynctools.consume trace count)) = false.
Proof.
  induction trace as [|[a|] rest IH]; intros [|count]; simpl; auto.
Qed.

(** Neither [multiplex] nor [schedule_generator] ever ends with the
    exception of a generator it collects: the exception stays in the task
    (or future) that nobody reads. *)
Lemma collected_exceptions_are_dropped :
  (forall sched (generators : list (Stream A)),
      is_Raised (ending (asynctools.multiplex sched generators)) = false)
  /\ (forall buffer_size lost_wakeup (generator : Stream A),
         is_Raised (ending (asynctools.schedule_generator buffer_size lost_wakeup
                                                          generator)) = false).
Proof.
  split.
  - intros. apply consume_never_raises.
  - intros.
    destruct (schedule_generator_cases buffer_size lost_wakeup generator)
      as [->|(n & _ & _ & _ & ->)]; [|reflexivity].
    destruct (is_Blocked (ending generator)); reflexivity.
Qed.

End Swallowing.

(* ===================================================================== *)
(** ** The scenarios, run *)
(* ===================================================================== *)

Section Scenarios.
Import SpecLogic knowledge_base test_listeners.

(** Runs the engine on a closed input under an arbitrary schedule: every
    multiplex met on the way carries at most one element. *)
Ltac run_engine :=
  repeat (lazy -[multiplex skipn asynctools.schedule_generator];
          rewrite multiplex_small by reflexivity);
  lazy -[multiplex skipn asynctools.schedule_generator].

(** C2, at the input of
    [test_listener_exceptions_make_the_whole_thing_fail]: the handler of
    one of two listeners raises [SomeException].  Whatever the schedule and
    whatever happens to the wake-ups of the bounded queue, the iterator
    returned by [ponder] yields the proof of the other listener and ends
    normally; the exception does not reach the caller.  No stream that went
    through [multiplex] or [schedule_generator] ends with an exception. *)
Theorem ponder_drops_handler_exception :
  forall depth_first k lost_wakeup sched,
    (exists h',
        listeners.ponder failing dylan_is_a_cat (fst exception_setup) 9
        = (mkStream [] (Raised (UserException "SomeException")), h'))
    /\ option_map conclusions
         (fst (ponder depth_first (S (S k)) lost_wakeup (fst exception_setup)
                      [Is dylan cat] (Mode KNOWN)
                      (mkWorld (snd exception_setup) sched)))
       = Some [PyLogicObject (apply_constant "Meows" dylan)]
    /\ option_map (@ending Proof)
         (fst (ponder depth_first (S (S k)) lost_wakeup (fst exception_setup)
                      [Is dylan cat] (Mode KNOWN)
                      (mkWorld (snd exception_setup) sched)))
       = Some Finished
    /\ (forall s (generators : list (Stream Proof)),
           is_Raised (ending (asynctools.multiplex s generators)) = false)
    /\ (forall buffer_size lost (generator : Stream Proof),
           is_Raised (ending (asynctools.schedule_generator buffer_size lost
                                                            generator)) = false).
Proof.
  intros depth_first k lost_wakeup sched.
  split; [eexists; reflexivity|].
  split; [|split; [|apply collected_exceptions_are_dropped]].
  - destruct k; destruct depth_first; run_engine;
      rewrite schedule_generator_short by reflexivity; reflexivity.
  - destruct k; destruct depth_first; run_engine;
      rewrite schedule_generator_short by reflexivity; reflexivity.
Qed.

(** C9.  [test_listener_chain]: with listeners A(x) -> B(x), B(x) -> C(x),
    C(x) -> D(x) and the stored formula A(foo), [ponder] is called on
    A(foo) in KNOWN mode; the statement is for every schedule, both orders
    of taking up derived proofs, and every bound of at least four rounds.
    When no wake-up of the bounded queue is lost, the iterator yields proofs
    whose conclusions are B(foo), C(foo), D(foo), in that order, and ends.
    When the [get_nowait] that takes the second element runs between
    [self.full()] and [self._putters.append(putter)] of the producer's
    [put], the iterator yields B(foo) and C(foo) only and never ends.
    Whatever happens to the wake-ups, what the iterator yields is B(foo),
    C(foo) and possibly D(foo), in that order, and it does not raise. *)
Theorem listener_chain_in_order_unless_a_wakeup_is_lost :
  forall depth_first k sched,
    let pondered lost_wakeup :=
      ponder depth_first (4 + k) lost_wakeup (fst chain_setup)
             [apply_constant "A" foo] (Mode KNOWN)
             (mkWorld (snd chain_setup) sched) in
    let B := PyLogicObject (apply_constant "B" foo) in
    let C := PyLogicObject (apply_constant "C" foo) in
    let D := PyLogicObject (apply_constant "D" foo) in
    (exists out w',
        pondered None = (Some out, w')
        /\ conclusions out = [B; C; D]
        /\ ending out = Finished)
    /\ (exists out w',
           pondered (Some 2) = (Some out, w')
           /\ conclusions out = [B; C]
           /\ ending out = Blocked)
    /\ (forall lost_wakeup,
           exists out w',
             pondered lost_wakeup = (Some out, w')
             /\ (conclusions out = [B; C] \/ conclusions out = [B; C; D])
             /\ is_Raised (ending out) = false).
Proof.
  intros depth_first k sched pondered B C D. unfold pondered.
  split; [|split].
  - destruct k; destruct depth_first; run_engine;
      (eexists; eexists; split; [reflexivity|split; reflexivity]).
  - destruct k; destruct depth_first; run_engine;
      (eexists; eexists; split; [reflexivity|split; reflexivity]).
  - intros lost_wakeup.
    destruct k; destruct depth_first; run_engine;
      (eexists; eexists; split; [reflexivity|]);
      match goal with
      | |- context [asynctools.schedule_generator 1 lost_wakeup ?g] =>
          destruct (schedule_generator_cases 1 lost_wakeup g)
            as [->|(n & _ & _ & Hn & ->)]
      end;
      try (split; [right; reflexivity|reflexivity]);
      cbn [yielded length] in Hn;
      (assert (En : n = 2 \/ n = 3) by lia);
      destruct En as [-> | ->];
      (split; [first [left; reflexivity|right; reflexivity]|reflexivity]).
Qed.

(** Fewer than four rounds do not suffice for the chain. *)
Lemma listener_chain_needs_four_rounds :
  fst (ponder false 3 None (fst chain_setup) [apply_constant "A" foo]
              (Mode KNOWN) (mkWorld (snd chain_setup) []))
  = None.
Proof. vm_compute. reflexivity. Qed.

(** C4, at the input of [test_listener_multiple_formulas_returned]: the
    handler returns [(Meows(_x), Purrs(_x))].  Both proofs name the
    listener and the triggering formula as their rule; the premises of the
    first are the triggering proof, but the premises of the second are the
    first proof, not the triggering proof. *)
Theorem second_proof_has_first_as_premise :
  exists first second h',
    listeners.ponder meow_and_purr_listener dylan_is_a_cat test_knowledge_base 100
    = (mkStream [first; second] Finished, h')
    /\ inference_rule first = Pondering 10 (PyLogicObject (Is dylan cat))
    /\ inference_rule second = Pondering 10 (PyLogicObject (Is dylan cat))
    /\ conclusion first = PyLogicObject (apply_constant "Meows" dylan)
    /\ conclusion second = PyLogicObject (apply_constant "Purrs" dylan)
    /\ premises first = [PyProof dylan_is_a_cat]
    /\ premises second = [PyProof first]
    /\ premises second <> [PyProof dylan_is_a_cat].
Proof.
  do 3 eexists. split; [vm_compute; reflexivity|].
  repeat (split; [reflexivity|]).
  discriminate.
Qed.

(** C6, as first stated, fails: a callback that a running event loop
    invokes is outside of any task, and [prove] raises [RuntimeError]
    there. *)
Lemma prove_raises_outside_any_task :
  asynctools.current_task asynctools.LoopCallback = inr None
  /\ prove asynctools.LoopCallback test_knowledge_base (Is dylan cat) false None
           (mkWorld 3 [])
     = (mkStream [] (Raised RuntimeError), mkWorld 3 []).
Proof. split; reflexivity. Qed.

Lemma list_storage_candidate_superset :
  candidate_superset (logic := SpecLogic.library)
                     (storage_class := SpecLogic.list_storage).
Proof.
  intros store other. exists (fun _ => true). split; [|reflexivity].
  simpl. induction store as [|t rest IH]; simpl; [reflexivity|].
  f_equal. exact IH.
Qed.

(** [P(y)] is stored and the goal is [P(f(x))]: at every heap past the
    identities of [x] and [y] the normalized stored formula unifies with
    the goal, and the retriever yields a proof of it. *)
Lemma knowledge_retriever_retrieves_witness :
  reachable examples.open_knowledge_base
  /\ exists h s,
       7 <= h
       /\ unify (fst (fst (normalize_variables
                             (apply_constant "P" (Var (mkVar 0 (Some "y") 6)))
                             (kb_language examples.open_knowledge_base) h)))
                examples.open_goal (Some empty_substitution)
          = Some s
       /\ In (proof_of (knowledge_retriever examples.open_knowledge_base)
                       examples.open_goal s)
             (yielded
                (fst (Prover_prove (knowledge_retriever examples.open_knowledge_base)
                                   examples.open_goal empty_substitution
                                   examples.open_knowledge_base (mkWorld 7 [])))).
Proof.
  assert (Hr : reachable examples.open_knowledge_base).
  { exact (reachable_add_formulas [apply_constant "P" (Var examples.v_y)] 6
             (reachable_init [] 0)). }
  split; [exact Hr|].
  destruct (knowledge_retriever_retrieves examples.open_goal empty_substitution
              (mkWorld 7 []) Hr)
    as (_ & _ & _ & _ & Hstored).
  destruct (Hstored (fun h => 7 <= h)) as [_ Hcomplete].
  - simpl. lia.
  - intros e h He Hh. vm_compute in He. destruct He as [<-|[]].
    cbv. lia.
  - exists (fun _ => true). split; [reflexivity|reflexivity].
  - apply Hcomplete.
    + left. reflexivity.
    + intros h Hh. replace h with (7 + (h - 7)) by lia.
      vm_compute. discriminate.
Defined.

(** [test_listener_argument_mode_map_unwrapped_required_fails_if_input_is_not_wrapped]:
    [dylan] is no wrapper, and the listener yields nothing. *)
Lemma refused_arguments_yield_nothing_witness :
  listeners.ponder unwrapped_required_listener dylan_and_hugo_are_cats
                   test_knowledge_base 100
  = (mkStream [] Finished, 102).
Proof.
  eapply (refused_arguments_yield_nothing unwrapped_required_listener
            dylan_and_hugo_are_cats test_knowledge_base 100).
  - reflexivity.
  - reflexivity.
  - left. reflexivity.
Defined.


End Scenarios.

(* ===================================================================== *)
(** ** More on [asynctools.multiplex] and [schedule_generator] *)
(* ===================================================================== *)

Section MultiplexOrder.
Import asynctools.
Variable A : Type.

Lemma subsequence_refl :
  forall (X : Type) (xs : list X), subsequence xs xs.
Proof.
  induction xs; constructor; auto.
Qed.

Lemma subsequence_length :
  forall (X : Type) (xs ys : list X), subsequence xs ys -> length xs <= length ys.
Proof.
  intros X xs ys H. induction H; simpl; lia.
Qed.

Lemma subsequence_same_length :
  forall (X : Type) (xs ys : list X),
    subsequence xs ys -> length ys <= length xs -> xs = ys.
Proof.
  intros X xs ys H. induction H as [ys|x xs ys H IH|y xs ys H IH]; simpl; intros Hl.
  - destruct ys; [reflexivity|simpl in Hl; lia].
  - f_equal. apply IH. lia.
  - apply subsequence_length in H. lia.
Qed.

Lemma subsequence_queue_items :
  forall (q trace : list (QueueItem A)),
    subsequence q trace -> subsequence (queue_items q) (queue_items trace).
Proof.
  intros q trace H. induction H as [ys|x xs ys H IH|y xs ys H IH].
  - constructor.
  - destruct x; simpl; [constructor|]; exact IH.
  - destruct y; simpl; [constructor|]; exact IH.
Qed.

Lemma all_empty :
  forall (X : Type) (qs : list (list X)),
    concat qs = [] -> Forall (fun q => q = []) qs.
Proof.
  induction qs as [|q rest IH]; simpl; intros H; constructor.
  - apply app_eq_nil in H. tauto.
  - apply IH. apply app_eq_nil in H. tauto.
Qed.

(** Every producer's pushes reach the queue in the producer's order. *)
Lemma interleave_subsequence :
  forall (X : Type) fuel sched (qs : list (list X)),
    total_length qs <= fuel ->
    Forall (fun q => subsequence q (interleave fuel sched qs)) qs.
Proof.
  intros X. induction fuel as [|fuel IH]; intros sched qs Hlen.
  - assert (H0 : concat qs = []).
    { unfold total_length in Hlen. destruct (concat qs); simpl in *; [auto|lia]. }
    eapply Forall_impl; [|apply all_empty; exact H0].
    intros q ->. constructor.
  - assert (Hstep : forall k x qs',
               pick k qs = Some (x, qs') ->
               Forall (fun q => subsequence q (x :: interleave fuel (tl sched) qs')) qs).
    { intros k x qs' Hp.
      destruct (pick_Some _ _ Hp) as (pre & q & post & -> & ->).
      assert (Hlen' : total_length (pre ++ q :: post) <= fuel).
      { rewrite !total_length_app in *. unfold total_length in *. simpl in *.
        rewrite !length_app in *. simpl in *. lia. }
      specialize (IH (tl sched) _ Hlen').
      apply Forall_app in IH. destruct IH as [Hpre Hrest].
      inversion Hrest as [|? ? Hq Hpost]; subst.
      apply Forall_app. split; [|constructor].
      - eapply Forall_impl; [|exact Hpre]. intros; constructor; assumption.
      - constructor. exact Hq.
      - eapply Forall_impl; [|exact Hpost]. intros; constructor; assumption. }
    simpl. destruct (pick (hd 0 sched) qs) as [[x qs']|] eqn:E1.
    + eapply Hstep; eauto.
    + destruct (pick 0 qs) as [[x qs']|] eqn:E2.
      * eapply Hstep; eauto.
      * eapply Forall_impl; [|apply all_empty; apply pick_first_None; exact E2].
        intros q ->. constructor.
Qed.

(** Against tasks that all finish, the consumer yields every element that
    reached the queue. *)
Lemma consume_interleave_exact :
  forall fuel sched (qs : list (list (QueueItem A))),
    Forall (@closing A) qs ->
    total_length qs <= fuel ->
    yielded (consume (interleave fuel sched qs) (live qs))
    = queue_items (interleave fuel sched qs).
Proof.
  induction fuel as [|fuel IH]; intros sched qs Hc Hlen.
  - simpl. destruct (live qs); reflexivity.
  - assert (Hstep : forall k x qs',
               pick k qs = Some (x, qs') ->
               yielded (consume (x :: interleave fuel (tl sched) qs') (live qs))
               = queue_items (x :: interleave fuel (tl sched) qs')).
    { intros k x qs' Hp.
      destruct (pick_step _ Hc Hp) as (Hc' & Hl & Hcase).
      assert (Hlen' : total_length qs' <= fuel) by lia.
      specialize (IH (tl sched) qs' Hc' Hlen').
      destruct Hcase as [(-> & Hlive & _)|(a & n & -> & Hlive & Hlive' & _)].
      - rewrite Hlive. simpl. exact IH.
      - rewrite Hlive. rewrite Hlive' in IH. simpl. f_equal. exact IH. }
    simpl. destruct (pick (hd 0 sched) qs) as [[x qs']|] eqn:E1.
    + eapply Hstep; eauto.
    + destruct (pick 0 qs) as [[x qs']|] eqn:E2.
      * eapply Hstep; eauto.
      * simpl. destruct (live qs); reflexivity.
Qed.

Lemma interleave_In :
  forall (X : Type) fuel sched (qs : list (list X)) x,
    In x (interleave fuel sched qs) -> In x (concat qs).
Proof.
  intros X. induction fuel as [|fuel IH]; intros sched qs x Hin; simpl in Hin.
  - contradiction.
  - assert (Hstep : forall k y qs',
               pick k qs = Some (y, qs') ->
               In x (y :: interleave fuel (tl sched) qs') -> In x (concat qs)).
    { intros k y qs' Hp Hx.
      destruct (pick_Some _ _ Hp) as (pre & q & post & -> & ->).
      rewrite concat_app. simpl. destruct Hx as [->|Hx].
      - apply in_or_app. right. left. reflexivity.
      - apply IH in Hx. rewrite concat_app in Hx. simpl in Hx.
        apply in_app_or in Hx. apply in_or_app.
        destruct Hx as [Hx|Hx]; [left; exact Hx|right].
        right. exact Hx. }
    destruct (pick (hd 0 sched) qs) as [[y qs']|] eqn:E1.
    + eapply Hstep; eauto.
    + destruct (pick 0 qs) as [[y qs']|] eqn:E2.
      * eapply Hstep; eauto.
      * contradiction.
Qed.

Lemma consume_In :
  forall (trace : list (QueueItem A)) count a,
    In a (yielded (consume trace count)) -> In (Item a) trace.
Proof.
  induction trace as [|[b|] rest IH]; intros [|count] a Hin; simpl in *;
    try contradiction.
  - destruct Hin as [->|Hin]; [left; reflexivity|right; eapply IH; eauto].
  - right. eapply IH; eauto.
Qed.

Lemma collect_In :
  forall (g : Stream A) a, In (Item a) (pushed (collect g)) -> In a (yielded g).
Proof.
  intros g a H. unfold collect in H.
  assert (Hm : In (Item a) (map Item (yielded g)) -> In a (yielded g)).
  { intros Hi. apply in_map_iff in Hi. destruct Hi as (b & Hb & Hi).
    inversion Hb; subst. exact Hi. }
  destruct (ending g); simpl in H; try (apply in_app_or in H; destruct H as [H|H]);
    auto; simpl in H; destruct H as [H|H]; try discriminate; contradiction.
Qed.

Lemma multiplex_incl :
  forall sched (generators : list (Stream A)),
    incl (yielded (multiplex sched generators))
         (concat (map (@yielded A) generators)).
Proof.
  intros sched generators.
  intros a Ha. unfold multiplex, queue_trace in Ha.
  apply consume_In, interleave_In in Ha.
  apply in_concat in Ha. destruct Ha as (q & Hq & Ha).
  rewrite map_map in Hq. apply in_map_iff in Hq. destruct Hq as (g & <- & Hg).
  apply in_concat. exists (yielded g). split; [apply in_map; exact Hg|].
  apply collect_In. exact Ha.
Qed.

(** X1.  Whatever the schedule, and whether the generators block, raise or
    finish, [multiplex] yields only elements that some generator yielded, and
    never ends with an exception. *)
Theorem multiplex_yields_only_given :
  forall sched (generators : list (Stream A)),
    incl (yielded (multiplex sched generators))
         (concat (map (@yielded A) generators))
    /\ is_Raised (ending (multiplex sched generators)) = false.
Proof.
  intros sched generators. split.
  - apply multiplex_incl.
  - apply consume_never_raises.
Qed.

(** X2.  When no generator blocks, [multiplex] ends normally under every
    schedule and yields each element of each generator exactly once: nothing
    is lost or repeated, also for generators that raised. *)
Theorem multiplex_loses_nothing :
  forall sched (generators : list (Stream A)),
    forallb (fun g => negb (is_Blocked (ending g))) generators = true ->
    ending (multiplex sched generators) = Finished
    /\ Permutation (yielded (multiplex sched generators))
                   (concat (map (@yielded A) generators)).
Proof.
  intros. apply multiplex_finishes. assumption.
Qed.

Lemma multiplex_subsequences :
  forall sched (generators : list (Stream A)),
    forallb (fun g => negb (is_Blocked (ending g))) generators = true ->
    Forall (fun g => subsequence (yielded g) (yielded (multiplex sched generators)))
           generators.
Proof.
  intros sched generators Hnb.
  rewrite forallb_forall in Hnb.
  set (qs := map (@pushed A) (map (@collect A) generators)).
  assert (Hqs : forall g, In g generators ->
                          pushed (collect g) = map Item (yielded g) ++ [Pill]).
  { intros g Hg. apply collect_closing. specialize (Hnb g Hg).
    destruct (is_Blocked (ending g)); simpl in *; auto; discriminate. }
  assert (Hc : Forall (@closing A) qs).
  { unfold qs. rewrite map_map. apply Forall_forall. intros q Hq.
    apply in_map_iff in Hq. destruct Hq as (g & <- & Hg).
    right. exists (yielded g). auto. }
  assert (Hlive : live qs = length generators).
  { unfold qs. rewrite map_map. clear Hc qs Hnb.
    induction generators as [|g rest IH]; [reflexivity|].
    unfold live in *. simpl. rewrite (Hqs g) by (left; reflexivity).
    destruct (map Item (yielded g) ++ [Pill]) eqn:E.
    - destruct (yielded g); discriminate.
    - simpl. rewrite IH; auto. intros; apply Hqs; right; auto. }
  pose proof (@interleave_subsequence _ (total_length qs) sched qs (le_n _)) as Hsub.
  pose proof (consume_interleave_exact sched Hc (le_n _)) as Hex.
  unfold multiplex, queue_trace. fold qs. rewrite <- Hlive, Hex.
  apply Forall_forall. intros g Hg.
  rewrite Forall_forall in Hsub.
  assert (Hin : In (pushed (collect g)) qs).
  { unfold qs. rewrite map_map. apply in_map_iff. exists g. auto. }
  specialize (Hsub _ Hin). apply subsequence_queue_items in Hsub.
  rewrite (Hqs g Hg), queue_items_pushed in Hsub. exact Hsub.
Qed.

(** X3.  When no generator blocks, the elements of each generator come out
    of [multiplex] in the order in which the generator yielded them, under
    every schedule. *)
Theorem multiplex_keeps_each_order :
  forall sched (generators : list (Stream A)),
    forallb (fun g => negb (is_Blocked (ending g))) generators = true ->
    Forall (fun g => subsequence (yielded g) (yielded (multiplex sched generators)))
           generators.
Proof.
  intros. apply multiplex_subsequences. assumption.
Qed.

Lemma multiplex_singleton :
  forall sched (g : Stream A),
    is_Blocked (ending g) = false ->
    multiplex sched [g] = mkStream (yielded g) Finished.
Proof.
  intros sched g Hg.
  assert (Hnb : forallb (fun g => negb (is_Blocked (ending g))) [g] = true).
  { simpl. rewrite Hg. reflexivity. }
  destruct (multiplex_finishes sched [g] Hnb) as [He Hp].
  pose proof (multiplex_subsequences sched [g] Hnb) as Hs.
  inversion Hs as [|? ? Hsub _]; subst.
  simpl in Hp. rewrite app_nil_r in Hp.
  apply Permutation_length in Hp.
  apply subsequence_same_length in Hsub; [|lia].
  destruct (multiplex sched [g]) as [ys e]. simpl in *. subst. reflexivity.
Qed.

(** X4.  Multiplexing one generator that does not block yields exactly its
    elements, in order, and ends normally even if the generator raised. *)
Theorem multiplex_of_one_generator :
  forall sched (g : Stream A),
    is_Blocked (ending g) = false ->
    multiplex sched [g] = mkStream (yielded g) Finished.
Proof.
  intros. apply multiplex_singleton. assumption.
Qed.


End MultiplexOrder.

(* ===================================================================== *)
(** ** More on the knowledge base *)
(* ===================================================================== *)

Section KnowledgeBaseExtras.
Context {logic : Library} {storage_class : LogicObjectStorage}
        {index_class : AbstruseIndex}.
Import knowledge_base.

Lemma prove_outside_loop_world :
  forall (kb : KnowledgeBase) formula retrieve_only previous w,
    snd (prove asynctools.NoRunningLoop kb formula retrieve_only previous w)
    = snd (_prepare_proof_sources kb formula retrieve_only previous w).
Proof.
  intros. unfold prove, bind, ret. simpl.
  destruct (_prepare_proof_sources kb formula retrieve_only previous w).
  reflexivity.
Qed.

Lemma prepared_stream :
  forall (kb : KnowledgeBase) formula retrieve_only previous w,
    fst (_prepare_proof_sources kb formula retrieve_only previous w)
    = asynctools.multiplex
        (choices (snd (sequence (proof_sources kb formula retrieve_only previous) w)))
        (fst (sequence (proof_sources kb formula retrieve_only previous) w)).
Proof.
  intros. unfold _prepare_proof_sources, bind.
  destruct (sequence (proof_sources kb formula retrieve_only previous) w).
  reflexivity.
Qed.

(** X6.  At every call site exactly one of [prove] and [async_prove] is
    refused: where [prove] raises [RuntimeError], [async_prove] runs the
    proof process, and where [async_prove] raises it, [prove] runs the same
    process through the scheduler.  The refused one yields nothing and
    leaves the state as it was. *)
Theorem prove_and_async_prove_are_complementary :
  forall site (kb : KnowledgeBase) formula retrieve_only previous w,
    (prove site kb formula retrieve_only previous w
     = (mkStream [] (Raised RuntimeError), w)
     /\ async_prove site kb formula retrieve_only previous w
        = _prepare_proof_sources kb formula retrieve_only previous w)
    \/ (async_prove site kb formula retrieve_only previous w
        = (mkStream [] (Raised RuntimeError), w)
        /\ fst (prove site kb formula retrieve_only previous w)
           = asynctools.schedule_generator 0 None
               (fst (_prepare_proof_sources kb formula retrieve_only previous w))
        /\ snd (prove site kb formula retrieve_only previous w)
           = snd (_prepare_proof_sources kb formula retrieve_only previous w)).
Proof.
  intros site kb formula retrieve_only previous w.
  destruct site.
  - right. split; [reflexivity|]. split.
    + apply prove_outside_loop.
    + apply prove_outside_loop_world.
  - left. split; reflexivity.
  - left. split; reflexivity.
Qed.

(** X7.  [prove], called where no event loop runs, yields the same proofs
    in the same order as [async_prove] called inside a task, and has the
    same effect on the state: the synchronous bridge adds and drops
    nothing. *)
Theorem prove_yields_what_async_prove_yields :
  forall (kb : KnowledgeBase) formula retrieve_only previous w,
    yielded (fst (prove asynctools.NoRunningLoop kb formula retrieve_only previous w))
    = yielded (fst (async_prove asynctools.InsideTask kb formula retrieve_only
                                previous w))
    /\ snd (prove asynctools.NoRunningLoop kb formula retrieve_only previous w)
       = snd (async_prove asynctools.InsideTask kb formula retrieve_only previous w).
Proof.
  intros. split.
  - rewrite prove_outside_loop, schedule_generator_spec. reflexivity.
  - apply prove_outside_loop_world.
Qed.

(** X8.  When no prover's stream blocks, [prove] ends normally and yields
    every proof of the retriever and of every indexed prover exactly once,
    each prover's proofs in that prover's order; a prover that raises takes
    nothing away from the others. *)
Theorem prove_yields_every_proof_of_every_source :
  forall (kb : KnowledgeBase) formula retrieve_only previous w,
    let sources :=
      fst (sequence (proof_sources kb formula retrieve_only previous) w) in
    let out :=
      fst (prove asynctools.NoRunningLoop kb formula retrieve_only previous w) in
    forallb (fun g => negb (is_Blocked (ending g))) sources = true ->
    ending out = Finished
    /\ Permutation (yielded out) (concat (map (@yielded Proof) sources))
    /\ Forall (fun g => subsequence (yielded g) (yielded out)) sources.
Proof.
  intros kb formula retrieve_only previous w sources out Hnb.
  unfold out. rewrite prove_outside_loop, schedule_generator_spec, prepared_stream.
  fold sources. cbn [yielded ending].
  destruct (multiplex_finishes
              (choices (snd (sequence (proof_sources kb formula retrieve_only previous) w)))
              sources Hnb) as [He Hp].
  rewrite He. cbn [is_Blocked]. split; [reflexivity|]. split; [exact Hp|].
  apply multiplex_subsequences. exact Hnb.
Qed.

(** With [retrieve_only=True], every proof that [prove] yields is a
    proof by the knowledge retriever whose conclusion is the goal itself and
    which has no premises, and [prove] ends normally. *)
Theorem retrieve_only_proofs_are_retrievals :
  forall (kb : KnowledgeBase) formula previous w,
    reachable kb ->
    ending (fst (prove asynctools.NoRunningLoop kb formula true previous w))
    = Finished
    /\ Forall (fun p => exists s, p = proof_of (knowledge_retriever kb) formula s)
              (yielded (fst (prove asynctools.NoRunningLoop kb formula true
                                   previous w))).
Proof.
  intros kb formula previous w Hreach.
  destruct (reachable_retriever Hreach) as (language & k & Hretr).
  assert (Hh : prover_handler (knowledge_retriever kb) = retrieve_knowledge).
  { rewrite Hretr. reflexivity. }
  rewrite prove_outside_loop, schedule_generator_spec.
  unfold _prepare_proof_sources, proof_sources. simpl. unfold bind, ret.
  pose proof (retriever_stream kb formula (or_empty previous) w Hh) as Hs.
  destruct (Prover_prove (knowledge_retriever kb) formula (or_empty previous) kb w)
    as [stream w1].
  simpl in Hs.
  destruct (@multiplex_Forall _
              (fun p => exists s, p = proof_of (knowledge_retriever kb) formula s)
              [stream] w1) as [He Hall].
  { constructor; [|constructor]. rewrite Hs. simpl. split; [reflexivity|].
    apply Forall_forall. intros p Hp. apply in_map_iff in Hp.
    destruct Hp as (s0 & <- & _). eauto. }
  rewrite He. simpl. split; [reflexivity|exact Hall].
Qed.

Lemma ponder_inference_rule :
  forall (self : Listener) proof (kb : KnowledgeBase) h,
    Forall (fun p => inference_rule p = Pondering (ident self) (conclusion proof))
           (yielded (fst (listeners.ponder self proof kb h))).
Proof.
  intros self proof kb h.
  unfold listeners.ponder, listeners.safety_gate, is_hypothetical. simpl.
  destruct (normalize_variables (listened_formula self) (_language self) h)
    as [[normalized mapping] h'].
  destruct (listeners.unify_fields (conclusion proof) normalized (substitution proof))
    as [e|[unifier|]]; simpl; auto.
  destruct (listeners._extract_args_by_name self (conclusion proof) unifier mapping)
    as [e|kwargs].
  - destruct e; simpl; auto.
  - cbn [fst]. unfold listeners.fire.
    destruct (handler self kwargs) as [result|e]; [|simpl; auto].
    destruct (match result with PyCoroutine r => r | _ => result end);
      try apply emit_inference_rule; simpl; auto.
Qed.

(** For a proof that carries a substitution the loop over the listeners
    runs through, whatever their number. *)
Lemma ponder_single_proof_with_substitution :
  forall (kb : KnowledgeBase) rule c s prems w,
    let proof := mkProof rule (PyLogicObject c) (PySubstitution s) prems in
    __ponder_single_proof kb proof w
    = (pondering_sources <-
         sequence
           (map (fun listener =>
                   allocating
                     (listeners.ponder listener (trigger_premise proof c s) kb))
                (get_listeners_for kb c)) ;;
       multiplex pondering_sources) w.
Proof.
  intros kb rule c s prems w proof.
  unfold __ponder_single_proof. simpl.
  destruct (get_listeners_for kb c); reflexivity.
Qed.

(** A proof for whose conclusion the index returns no listener produces
    nothing, whatever its substitution field holds. *)
Lemma ponder_single_proof_without_listeners :
  forall (kb : KnowledgeBase) rule c field prems w,
    get_listeners_for kb c = [] ->
    fst (__ponder_single_proof kb (mkProof rule (PyLogicObject c) field prems) w)
    = mkStream [] Finished.
Proof.
  intros kb rule c field prems w Hnone.
  unfold __ponder_single_proof. simpl. rewrite Hnone. reflexivity.
Qed.

(** X9.  Every proof that [__ponder_single_proof] produces for a proof with
    conclusion [c] and substitution [s] names as its rule a listener that the
    listener index returns for the key of [c], together with the triggering
    formula, which is [c] with [s] applied; a proof for which the index
    returns no listener produces nothing. *)
Theorem pondered_proofs_name_an_indexed_listener :
  forall (kb : KnowledgeBase) rule c s prems w,
    let proof := mkProof rule (PyLogicObject c) (PySubstitution s) prems in
    Forall (fun p => exists l,
                In l (get_listeners_for kb c)
                /\ inference_rule p
                   = Pondering (ident l) (PyLogicObject (apply_to s c)))
           (yielded (fst (__ponder_single_proof kb proof w)))
    /\ (get_listeners_for kb c = [] ->
        fst (__ponder_single_proof kb proof w) = mkStream [] Finished).
Proof.
  intros kb rule c s prems w proof.
  split.
  - unfold proof. rewrite ponder_single_proof_with_substitution.
    fold proof. unfold bind.
    set (P := fun p => exists l,
                  In l (get_listeners_for kb c)
                  /\ inference_rule p
                     = Pondering (ident l) (PyLogicObject (apply_to s c))).
    pose proof (@sequence_Forall _ (fun g => Forall P (yielded g))
                  (map (fun listener =>
                          allocating (listeners.ponder listener
                                        (trigger_premise proof c s) kb))
                       (get_listeners_for kb c))) as Hseq.
    assert (Hall : Forall (fun c0 : M (Stream Proof) =>
                             forall w0, Forall P (yielded (fst (c0 w0))))
                          (map (fun listener =>
                                  allocating (listeners.ponder listener
                                                (trigger_premise proof c s) kb))
                               (get_listeners_for kb c))).
    { apply Forall_forall. intros c0 Hc0. apply in_map_iff in Hc0.
      destruct Hc0 as (l & <- & Hl). intros w0. unfold allocating.
      pose proof (ponder_inference_rule l (trigger_premise proof c s) kb (heap w0))
        as Hrule.
      destruct (listeners.ponder l (trigger_premise proof c s) kb (heap w0))
        as [stream h']. simpl in *.
      eapply Forall_impl; [|exact Hrule]. intros p Hp. exists l. auto. }
    specialize (Hseq Hall w).
    destruct (sequence _ w) as [sources w1]. simpl in *.
    apply Forall_forall. intros p Hp.
    apply multiplex_incl in Hp. apply in_concat in Hp.
    destruct Hp as (ys & Hys & Hp). apply in_map_iff in Hys.
    destruct Hys as (g & <- & Hg).
    rewrite Forall_forall in Hseq. specialize (Hseq g Hg).
    rewrite Forall_forall in Hseq. apply Hseq. exact Hp.
  - intros Hnone. unfold __ponder_single_proof. simpl.
    rewrite Hnone. reflexivity.
Qed.

(** X10.  The iterator that [ponder] returns raises only for a ponder mode
    that is not KNOWN or PROVE, and then [NotImplementedError]: in KNOWN and
    PROVE mode no exception of a prover, a listener or a handler reaches the
    caller. *)
Theorem ponder_raises_only_for_unknown_modes :
  forall depth_first fuel lost_wakeup (kb : KnowledgeBase) formulas mode w out e,
    fst (ponder depth_first fuel lost_wakeup kb formulas mode w) = Some out ->
    ending out = Raised e ->
    e = NotImplementedError /\ mode <> Mode KNOWN /\ mode <> Mode PROVE.
Proof.
  intros depth_first fuel lost_wakeup kb formulas mode w out e Hout He.
  unfold ponder in Hout.
  destruct (__make_proving_process kb formulas mode) as [e0|make] eqn:Em.
  - simpl in Hout. inversion Hout; subst out. simpl in He. inversion He; subst e0.
    destruct mode as [[| |]|repr]; simpl in Em; inversion Em; subst;
      repeat split; discriminate.
  - exfalso. unfold bind, ret in Hout.
    destruct (make w) as [proving_process w1].
    destruct (process_with_loopback depth_first fuel proving_process
                (__ponder_single_proof kb) w1) as [[process|] w2];
      cbn [fst option_map] in Hout; [|discriminate].
    destruct (schedule_generator_cases 1 lost_wakeup process)
      as [Hs|(n & _ & _ & _ & Hs)]; rewrite Hs in Hout;
      injection Hout as <-; simpl in He;
      [destruct (is_Blocked (ending process))|]; discriminate.
Qed.



End KnowledgeBaseExtras.

(* ===================================================================== *)
(** ** What [prove] and [ponder] prove with *)
(* ===================================================================== *)

Section ProveAndPonder.
Context {logic : Library} {storage_class : LogicObjectStorage}
        {index_class : AbstruseIndex}.
Import knowledge_base.

Lemma sequence_Forall2 :
  forall A (cs : list (M A)) w,
    Forall2 (fun c a => exists w0, a = fst (c w0)) cs (fst (sequence cs w)).
Proof.
  intros A cs. induction cs as [|c rest IH]; intros w; simpl.
  - constructor.
  - unfold bind, ret. destruct (c w) as [a w1] eqn:Ec.
    specialize (IH w1). destruct (sequence rest w1) as [more w2].
    simpl in *. constructor; [|exact IH].
    exists w. rewrite Ec. reflexivity.
Qed.

Lemma Forall2_map_left :
  forall X Y Z (f : X -> Y) (R : Y -> Z -> Prop) xs zs,
    Forall2 R (map f xs) zs -> Forall2 (fun x z => R (f x) z) xs zs.
Proof.
  intros X Y Z f R xs. induction xs as [|x rest IH]; intros zs H; simpl in H;
    inversion H; subst; constructor; auto.
Qed.

Lemma Forall2_Forall_right :
  forall X Z (R : X -> Z -> Prop) (Q : Z -> Prop) xs zs,
    (forall x z, R x z -> Q z) -> Forall2 R xs zs -> Forall Q zs.
Proof.
  intros X Z R Q xs zs HRQ H. induction H; constructor; eauto.
Qed.

Lemma retriever_handler :
  forall kb : KnowledgeBase,
    reachable kb -> prover_handler (knowledge_retriever kb) = retrieve_knowledge.
Proof.
  intros kb Hreach.
  destruct (reachable_retriever Hreach) as (language & k & ->). reflexivity.
Qed.

(** The sources of a proof process, as the body of
    [_prepare_proof_sources] lists them. *)
Lemma proof_sources_listed :
  forall (kb : KnowledgeBase) formula (retrieve_only : bool) previous,
    proof_sources kb formula retrieve_only previous
    = Prover_prove (knowledge_retriever kb) formula (or_empty previous) kb
      :: (if retrieve_only then []
          else map (fun prover => Prover_prove prover formula (or_empty previous) kb)
                   (index_retrieve (_prover_storage kb) (make_key formula))).
Proof.
  intros kb formula [|] previous; reflexivity.
Qed.

Lemma sources_never_block :
  forall kb : KnowledgeBase,
    reachable kb ->
    provers_never_block kb ->
    forall formula retrieve_only previous w,
      forallb (fun g => negb (is_Blocked (ending g)))
              (fst (sequence (proof_sources kb formula retrieve_only previous) w))
      = true.
Proof.
  intros kb Hreach Hnb formula retrieve_only previous w.
  apply forallb_forall.
  apply Forall_forall.
  apply (@sequence_Forall _ (fun g => negb (is_Blocked (ending g)) = true)).
  rewrite proof_sources_listed. constructor.
  - intros w0. rewrite retriever_stream by (apply retriever_handler; exact Hreach).
    reflexivity.
  - destruct retrieve_only; [constructor|].
    apply Forall_forall. intros c Hc. apply in_map_iff in Hc.
    destruct Hc as (prover & <- & Hp). intros w0.
    unfold provers_never_block, get_provers_for in Hnb.
    rewrite (Hnb formula prover (or_empty previous) w0 Hp). reflexivity.
Qed.

(** The multiplex of sources that do not block loses nothing. *)
Lemma prepared_finishes :
  forall kb : KnowledgeBase,
    reachable kb ->
    provers_never_block kb ->
    forall formula retrieve_only previous w,
      let streams :=
        fst (sequence (proof_sources kb formula retrieve_only previous) w) in
      let out :=
        fst (_prepare_proof_sources kb formula retrieve_only previous w) in
      ending out = Finished
      /\ Permutation (yielded out) (concat (map (@yielded Proof) streams))
      /\ Forall (fun g => subsequence (yielded g) (yielded out)) streams.
Proof.
  intros kb Hreach Hnb formula retrieve_only previous w streams out.
  pose proof (sources_never_block Hreach Hnb formula retrieve_only previous w)
    as Hlive.
  unfold out. rewrite prepared_stream. fold streams. fold streams in Hlive.
  destruct (multiplex_finishes
              (choices (snd (sequence (proof_sources kb formula retrieve_only
                                                     previous) w)))
              streams Hlive) as [He Hp].
  split; [exact He|]. split; [exact Hp|].
  apply multiplex_subsequences. exact Hlive.
Qed.

(** With [retrieve_only=True] the proof process is the stream of the
    knowledge retriever. *)
Lemma retrieval_process :
  forall kb : KnowledgeBase,
    reachable kb ->
    forall formula previous w,
      fst (_prepare_proof_sources kb formula true previous w)
      = fst (Prover_prove (knowledge_retriever kb) formula (or_empty previous) kb w).
Proof.
  intros kb Hreach formula previous w.
  pose proof (retriever_stream kb formula (or_empty previous) w
                (retriever_handler Hreach)) as Hs.
  unfold _prepare_proof_sources, proof_sources. simpl. unfold bind, ret.
  destruct (Prover_prove (knowledge_retriever kb) formula (or_empty previous) kb w)
    as [stream w1].
  simpl in Hs. unfold multiplex. cbn [fst].
  rewrite multiplex_singleton by (rewrite Hs; reflexivity).
  rewrite Hs. reflexivity.
Qed.

(** The proving process of [ponder] merges one proof process per formula. *)
Lemma proving_process_merges :
  forall (kb : KnowledgeBase) retrieve_only formulas w
         (R : Term -> Stream Proof -> Prop),
    (forall f w0,
        ending (fst (_prepare_proof_sources kb f retrieve_only None w0)) = Finished
        /\ R f (fst (_prepare_proof_sources kb f retrieve_only None w0))) ->
    let streams := fst (sequence (proving_sources kb formulas retrieve_only) w) in
    let w0 := snd (sequence (proving_sources kb formulas retrieve_only) w) in
    let proving := fst (multiplex streams w0) in
    Forall2 R formulas streams
    /\ ending proving = Finished
    /\ Permutation (yielded proving) (concat (map (@yielded Proof) streams))
    /\ Forall (fun g => subsequence (yielded g) (yielded proving)) streams.
Proof.
  intros kb retrieve_only formulas w R Heach streams w0 proving.
  assert (Hboth : Forall2 (fun f g => ending g = Finished /\ R f g)
                          formulas streams).
  { pose proof (sequence_Forall2 (proving_sources kb formulas retrieve_only) w)
      as Hseq.
    fold streams in Hseq. unfold proving_sources in Hseq.
    apply Forall2_map_left in Hseq.
    eapply Forall2_impl; [|exact Hseq].
    intros f g (w1 & ->). unfold async_prove. simpl. apply Heach. }
  assert (Hlive : forallb (fun g => negb (is_Blocked (ending g))) streams = true).
  { apply forallb_forall. apply Forall_forall.
    eapply Forall2_Forall_right; [|exact Hboth].
    intros f g [-> _]. reflexivity. }
  split.
  { eapply Forall2_impl; [|exact Hboth]. intros f g [_ H]. exact H. }
  unfold proving, multiplex. cbn [fst].
  destruct (multiplex_finishes (choices w0) streams Hlive) as [He Hp].
  split; [exact He|]. split; [exact Hp|].
  apply multiplex_subsequences. exact Hlive.
Qed.

(** [ponder] hands the proving process of its mode to the loopback and the
    result to the scheduler. *)
Lemma ponder_runs_the_proving_process :
  forall depth_first fuel lost_wakeup (kb : KnowledgeBase) formulas
         (retrieve_only : bool) w,
    let streams := fst (sequence (proving_sources kb formulas retrieve_only) w) in
    let w0 := snd (sequence (proving_sources kb formulas retrieve_only) w) in
    let proving := fst (multiplex streams w0) in
    let w1 := snd (multiplex streams w0) in
    ponder depth_first fuel lost_wakeup kb formulas
           (Mode (if retrieve_only then KNOWN else PROVE)) w
    = (let (process, w2) :=
         process_with_loopback depth_first fuel proving
                               (__ponder_single_proof kb) w1 in
       (option_map (asynctools.schedule_generator 1 lost_wakeup) process, w2)).
Proof.
  intros depth_first fuel lost_wakeup kb formulas retrieve_only w.
  unfold ponder.
  destruct retrieve_only; cbn [__make_proving_process]; unfold bind, ret;
    destruct (sequence _ w) as [streams w0]; cbn [fst snd];
    destruct (multiplex streams w0) as [proving w1]; cbn [fst snd];
    destruct (process_with_loopback depth_first fuel proving
                (__ponder_single_proof kb) w1) as [process w2];
    reflexivity.
Qed.

(** C3.  Where no prover hangs, [prove] ends normally and yields, once
    each and each source's in that source's order, the proofs of the
    knowledge retriever's stream and, exactly when [retrieve_only] is
    false, of one stream per prover that the prover index returns for the
    key of the goal.  [ponder] runs its listeners on a merge of one proof
    process per input formula: in KNOWN mode that process is the stream of
    the knowledge retriever alone, and yields what [prove] yields with
    [retrieve_only=True]; in PROVE mode it yields what [prove] yields with
    [retrieve_only=False], the proofs of the full prover set. *)
Theorem prove_sources_and_ponder_modes :
  forall kb : KnowledgeBase,
    reachable kb ->
    provers_never_block kb ->
    (forall formula previous (retrieve_only : bool) w,
        let retriever_source :=
          Prover_prove (knowledge_retriever kb) formula (or_empty previous) kb in
        let prover_sources :=
          map (fun prover => Prover_prove prover formula (or_empty previous) kb)
              (index_retrieve (_prover_storage kb) (make_key formula)) in
        let sources :=
          retriever_source :: (if retrieve_only then [] else prover_sources) in
        let streams := fst (sequence sources w) in
        let out :=
          fst (prove asynctools.NoRunningLoop kb formula retrieve_only previous w) in
        Forall2 (fun source g => exists w0, g = fst (source w0)) sources streams
        /\ ending out = Finished
        /\ Permutation (yielded out) (concat (map (@yielded Proof) streams))
        /\ Forall (fun g => subsequence (yielded g) (yielded out)) streams)
    /\ (forall depth_first fuel lost_wakeup formulas w,
           exists streams proving w1,
             Forall2
               (fun f g =>
                  exists w0,
                    g = fst (Prover_prove (knowledge_retriever kb) f
                                          empty_substitution kb w0)
                    /\ yielded g
                       = yielded (fst (prove asynctools.NoRunningLoop kb f true
                                             None w0)))
               formulas streams
             /\ ending proving = Finished
             /\ Permutation (yielded proving) (concat (map (@yielded Proof) streams))
             /\ Forall (fun g => subsequence (yielded g) (yielded proving)) streams
             /\ ponder depth_first fuel lost_wakeup kb formulas (Mode KNOWN) w
                = (let (process, w2) :=
                     process_with_loopback depth_first fuel proving
                                           (__ponder_single_proof kb) w1 in
                   (option_map (asynctools.schedule_generator 1 lost_wakeup)
                               process, w2)))
    /\ (forall depth_first fuel lost_wakeup formulas w,
           exists streams proving w1,
             Forall2
               (fun f g =>
                  exists w0,
                    yielded g
                    = yielded (fst (prove asynctools.NoRunningLoop kb f false
                                          None w0)))
               formulas streams
             /\ ending proving = Finished
             /\ Permutation (yielded proving) (concat (map (@yielded Proof) streams))
             /\ Forall (fun g => subsequence (yielded g) (yielded proving)) streams
             /\ ponder depth_first fuel lost_wakeup kb formulas (Mode PROVE) w
                = (let (process, w2) :=
                     process_with_loopback depth_first fuel proving
                                           (__ponder_single_proof kb) w1 in
                   (option_map (asynctools.schedule_generator 1 lost_wakeup)
                               process, w2))).
Proof.
  intros kb Hreach Hnb. split; [|split].
  - intros formula previous retrieve_only w
           retriever_source prover_sources sources streams out.
    assert (Hsources : proof_sources kb formula retrieve_only previous = sources).
    { apply proof_sources_listed. }
    split; [apply sequence_Forall2|].
    destruct (prepared_finishes Hreach Hnb formula retrieve_only previous w)
      as (He & Hp & Hsub).
    rewrite Hsources in Hp, Hsub. fold streams in Hp, Hsub.
    unfold out. rewrite prove_outside_loop, schedule_generator_spec.
    cbn [yielded ending]. rewrite He. cbn [is_Blocked].
    split; [reflexivity|]. split; assumption.
  - intros depth_first fuel lost_wakeup formulas w.
    pose proof (ponder_runs_the_proving_process depth_first fuel lost_wakeup
                  kb formulas true w) as Hponder.
    cbv zeta in Hponder.
    destruct (@proving_process_merges kb true formulas w
                (fun f g =>
                   exists w0,
                     g = fst (Prover_prove (knowledge_retriever kb) f
                                           empty_substitution kb w0)
                     /\ yielded g
                        = yielded (fst (prove asynctools.NoRunningLoop kb f true
                                              None w0))))
      as (Hstreams & He & Hp & Hsub).
    { intros f w0. rewrite (retrieval_process Hreach). split.
      - rewrite retriever_stream by (apply retriever_handler; exact Hreach).
        reflexivity.
      - exists w0. split; [reflexivity|].
        rewrite prove_outside_loop, schedule_generator_spec.
        rewrite (retrieval_process Hreach). reflexivity. }
    do 3 eexists. repeat (split; [eassumption|]). exact Hponder.
  - intros depth_first fuel lost_wakeup formulas w.
    pose proof (ponder_runs_the_proving_process depth_first fuel lost_wakeup
                  kb formulas false w) as Hponder.
    cbv zeta in Hponder.
    destruct (@proving_process_merges kb false formulas w
                (fun f g =>
                   exists w0,
                     yielded g
                     = yielded (fst (prove asynctools.NoRunningLoop kb f false
                                           None w0))))
      as (Hstreams & He & Hp & Hsub).
    { intros f w0. split.
      - apply (prepared_finishes Hreach Hnb).
      - exists w0. rewrite prove_outside_loop, schedule_generator_spec.
        reflexivity. }
    do 3 eexists. repeat (split; [eassumption|]). exact Hponder.
Qed.

End ProveAndPonder.

(* ===================================================================== *)
(** ** More on [Listener.ponder] *)
(* ===================================================================== *)

Section ListenerExtras.
Context {logic : Library} {storage_class : LogicObjectStorage}
        {index_class : AbstruseIndex}.
Import listeners.

Lemma last_cons :
  forall (X : Type) (l : list X) (a d : X), last (a :: l) d = last l a.
Proof.
  induction l as [|b l IH]; intros a d; [reflexivity|].
  change (last (a :: b :: l) d) with (last (b :: l) d).
  rewrite (IH b d), (IH b a). reflexivity.
Qed.

(** The loop over a list of items that is cut in two: when the first part is
    worked off without an error, the second part goes on from the proof that
    was yielded last. *)
Lemma emit_app :
  forall (self : Listener) formula unifier xs ys stop proof,
    ending (emit self formula unifier xs Finished proof) = Finished ->
    emit self formula unifier (xs ++ ys) stop proof
    = mkStream
        (yielded (emit self formula unifier xs Finished proof)
         ++ yielded (emit self formula unifier ys stop
                          (last (yielded (emit self formula unifier xs Finished proof))
                                proof)))
        (ending (emit self formula unifier ys stop
                      (last (yielded (emit self formula unifier xs Finished proof))
                            proof))).
Proof.
  intros self formula unifier xs ys stop.
  induction xs as [|item rest IH]; intros proof Hfin.
  - simpl. destruct (emit self formula unifier ys stop proof). reflexivity.
  - simpl in *.
    destruct (read_item unifier item) as [e|[[c s] prem]]; [discriminate|].
    destruct (ending (iterate prem)); try discriminate.
    simpl in Hfin. rewrite (IH _ Hfin). cbn [yielded ending app].
    rewrite last_cons. reflexivity.
Qed.

Lemma read_item_rejects :
  forall unifier item,
    accepted_shape item = false -> read_item unifier item = inl ValueError.
Proof.
  intros unifier item H. destruct item; simpl in *; try discriminate; auto.
  destruct elements as [|a [|b [|c [|d rest]]]]; simpl in *;
    try discriminate; reflexivity.
Qed.

Lemma ponder_first_premises :
  forall (self : Listener) proof (kb : KnowledgeBase) h,
    map (fun p => hd PyNone (premises p))
        (yielded (fst (ponder self proof kb h)))
    = map PyProof (removelast (proof :: yielded (fst (ponder self proof kb h)))).
Proof.
  intros self proof kb h.
  unfold ponder, safety_gate, is_hypothetical. simpl.
  destruct (normalize_variables (listened_formula self) (_language self) h)
    as [[normalized mapping] h'].
  destruct (unify_fields (conclusion proof) normalized (substitution proof))
    as [e|[unifier|]]; simpl; auto.
  destruct (_extract_args_by_name self (conclusion proof) unifier mapping)
    as [e|kwargs].
  - destruct e; simpl; auto.
  - cbn [fst]. unfold fire.
    destruct (handler self kwargs) as [result|e]; [|simpl; auto].
    destruct (match result with PyCoroutine r => r | _ => result end);
      try apply emit_first_premises; simpl; auto.
Qed.

(** X12.  For every handler and every result it returns, each proof that
    [Listener.ponder] yields names the listener and the conclusion of the
    triggering proof as its rule and has a first premise; that premise is
    the triggering proof for the first proof yielded, and for every later
    proof it is the proof yielded just before. *)
Theorem pondered_proofs_rule_and_first_premise :
  forall (self : Listener) proof (kb : KnowledgeBase) h,
    let out := fst (ponder self proof kb h) in
    Forall (fun p => inference_rule p = Pondering (ident self) (conclusion proof))
           (yielded out)
    /\ map (fun p => hd PyNone (premises p)) (yielded out)
       = map PyProof (removelast (proof :: yielded out)).
Proof.
  intros self proof kb h out. split.
  - apply ponder_inference_rule.
  - apply ponder_first_premises.
Qed.

(** X13.  An item of a shape that is not accepted ends the firing with
    [ValueError]: the proofs of the items before it have been yielded, the
    items after it are never looked at. *)
Theorem unaccepted_item_raises_after_the_proofs_before_it :
  forall (self : Listener) formula unifier before item after stop proof,
    accepted_shape item = false ->
    ending (emit self formula unifier before Finished proof) = Finished ->
    emit self formula unifier (before ++ item :: after) stop proof
    = mkStream (yielded (emit self formula unifier before Finished proof))
               (Raised ValueError).
Proof.
  intros self formula unifier before item after stop proof Hbad Hfin.
  rewrite (emit_app _ _ _ _ (item :: after) stop _ Hfin).
  simpl. rewrite (read_item_rejects unifier _ Hbad). simpl.
  rewrite app_nil_r. reflexivity.
Qed.

(** X14.  When the handler returns a generator of terms, the firing yields
    one proof per term, with the term as conclusion and the unifier as
    substitution, and then ends the way the generator ended: an exception
    raised by the generator after some terms comes after their proofs. *)
Theorem generator_of_terms_ends_as_the_generator :
  forall (self : Listener) proof unifier kwargs items stop,
    handler self kwargs = Returns (PyGenerator items stop) ->
    forallb is_LogicObject items = true ->
    map conclusion (yielded (fire self proof unifier kwargs)) = items
    /\ Forall (fun p => substitution p = PySubstitution unifier)
              (yielded (fire self proof unifier kwargs))
    /\ ending (fire self proof unifier kwargs) = stop.
Proof.
  intros self proof unifier kwargs items stop Hret Hall.
  unfold fire. rewrite Hret. unfold result_items. simpl.
  destruct (emit_terms self (conclusion proof) unifier items proof Hall)
    as (Hfin & Hc & Hs).
  pose proof (emit_app self (conclusion proof) unifier items [] stop proof Hfin)
    as Happ.
  rewrite app_nil_r in Happ. rewrite Happ. simpl. rewrite app_nil_r.
  split; [exact Hc|]. split; [|reflexivity].
  eapply Forall_impl; [|exact Hs]. intros p [Hp _]. exact Hp.
Qed.

Lemma read_item_as_tuple :
  forall unifier item, read_item unifier (as_tuple item) = read_item unifier item.
Proof.
  intros unifier item. destruct item; try reflexivity.
  - simpl. destruct item3; reflexivity.
  - destruct elements as [|a [|b [|c [|d rest]]]]; try reflexivity.
    simpl. destruct c; reflexivity.
Qed.

(** X15.  The record forms of an item are read as the tuples of their
    fields, and premises given as a single proof as a 1-tuple: rewriting
    every item of a handler's stream to tuples does not change what the
    firing yields or how it ends. *)
Theorem records_are_read_as_tuples :
  forall (self : Listener) formula unifier items stop proof,
    emit self formula unifier (map as_tuple items) stop proof
    = emit self formula unifier items stop proof.
Proof.
  intros self formula unifier items stop.
  induction items as [|item rest IH]; intros proof; [reflexivity|].
  cbn [map emit]. rewrite read_item_as_tuple.
  destruct (read_item unifier item) as [e|[[c s] prem]]; [reflexivity|].
  destruct (ending (iterate prem)); try reflexivity.
  rewrite IH. reflexivity.
Qed.

End ListenerExtras.

(* ===================================================================== *)
(** ** The [contextual] decorator *)
(* ===================================================================== *)

Scheme Generator_mutual := Induction for context.Generator Sort Prop
  with Outcome_mutual := Induction for context.Outcome Sort Prop.

Section ContextualExtras.
Import context.
Variable V R : Type.

Lemma getattr_setattr :
  forall (c : Context V) a v, getattr (setattr c a v) a = v.
Proof. intros c [] v; reflexivity. Qed.

Lemma getattr_setattr_other :
  forall (c : Context V) a b v, a <> b -> getattr (setattr c a v) b = getattr c b.
Proof. intros c [] [] v H; try reflexivity; congruence. Qed.

Lemma setattr_setattr :
  forall (c : Context V) a v w, setattr (setattr c a v) a w = setattr c a w.
Proof. intros c [] v w; reflexivity. Qed.

Lemma setattr_getattr :
  forall (c : Context V) a, setattr c a (getattr c a) = c.
Proof. intros [x y z] []; reflexivity. Qed.

(** The wrapper, resumed by a consumer that sees the attribute at [p], runs
    the body with the attribute at [value] and shows every item with the
    attribute back at [p]. *)
Lemma wrapped_loop_iterate :
  forall a (value : V) (res : Generator V R),
    keeps a value res ->
    forall c p,
      getattr c a = value ->
      iterate
        (resume_with
           (fun c'' => wrapped_loop a value res (getattr c'' a) (setattr c'' a value)))
        (setattr c a p)
      = (map (fun rc => (fst rc, setattr (snd rc) a p)) (fst (fst (iterate res c))),
         snd (fst (iterate res c)), snd (iterate res c))
      /\ getattr (snd (fst (iterate res c))) a = value.
Proof.
  intros a value.
  apply (Generator_mutual
           (fun res =>
              keeps a value res ->
              forall c p,
                getattr c a = value ->
                iterate
                  (resume_with
                     (fun c'' => wrapped_loop a value res (getattr c'' a)
                                              (setattr c'' a value)))
                  (setattr c a p)
                = (map (fun rc => (fst rc, setattr (snd rc) a p))
                       (fst (fst (iterate res c))),
                   snd (fst (iterate res c)), snd (iterate res c))
                /\ getattr (snd (fst (iterate res c))) a = value)
           (fun o =>
              keeps_outcome a value o ->
              forall p,
                iterate_outcome (wrapped_outcome a value o p)
                = (map (fun rc => (fst rc, setattr (snd rc) a p))
                       (fst (fst (iterate_outcome o))),
                   snd (fst (iterate_outcome o)), snd (iterate_outcome o))
                /\ getattr (snd (fst (iterate_outcome o))) a = value)).
  - intros next IH Hkeeps c p Hc.
    cbn [iterate wrapped_loop].
    rewrite getattr_setattr, setattr_setattr.
    replace (setattr c a value) with c
      by (rewrite <- Hc; symmetry; apply setattr_getattr).
    apply IH. apply Hkeeps. exact Hc.
  - intros c' r rest IH [Hc' Hkeeps] p.
    destruct (IH Hkeeps c' p Hc') as [Heq Hfinal].
    change (iterate_outcome (wrapped_outcome a value (Yields c' r rest) p))
      with (let '(items, final, raised) :=
              iterate
                (resume_with
                   (fun c'' => wrapped_loop a value rest (getattr c'' a)
                                            (setattr c'' a value)))
                (setattr c' a p) in
            ((r, setattr c' a p) :: items, final, raised)).
    rewrite Heq.
    change (iterate_outcome (Yields c' r rest))
      with (let '(items, final, raised) := iterate rest c' in
            ((r, c') :: items, final, raised)).
    destruct (iterate rest c') as [[items final] raised]. simpl in *.
    split; [reflexivity|exact Hfinal].
  - intros c' Hc' p. simpl. auto.
  - intros c' e Hc' p. simpl. auto.
Qed.

(** X16.  A generator function decorated with [contextual], whose body does
    not assign the attribute itself: the body runs with the attribute at
    [value] and the items are those of the undecorated generator; the
    consumer finds the attribute at the value it had before the call while it
    holds an item; but when the generator is exhausted, or raises, the
    attribute is left at [value] and is not put back. *)
Theorem contextual_generator_swaps_but_does_not_restore :
  forall a (value : V) (res : Generator V R) c,
    keeps a value res ->
    let run := iterate (contextual_generator a value res) c in
    let body := iterate res (setattr c a value) in
    map fst (fst (fst run)) = map fst (fst (fst body))
    /\ snd run = snd body
    /\ Forall (fun rc => getattr (snd rc) a = getattr c a) (fst (fst run))
    /\ getattr (snd (fst run)) a = value.
Proof.
  intros a value res c Hkeeps run body.
  destruct (@wrapped_loop_iterate a value res Hkeeps (setattr c a value)
              (getattr c a) (getattr_setattr c a value)) as [Heq Hfinal].
  rewrite setattr_setattr, setattr_getattr in Heq.
  unfold run, body, contextual_generator. rewrite Heq. cbn [fst snd].
  split; [rewrite map_map; reflexivity|]. split; [reflexivity|].
  split; [|exact Hfinal].
  apply Forall_forall. intros rc Hrc. apply in_map_iff in Hrc.
  destruct Hrc as (rc0 & <- & _). cbn [snd]. apply getattr_setattr.
Qed.

(** X17.  A function that is no generator function, decorated with
    [contextual]: advancing the generator object that the call returns runs
    the function with the attribute at [value] and yields nothing.  When the
    function returns, the attribute is put back to what it was before and
    the other attributes are as the function left them; when it raises, the
    exception goes on to the caller and nothing is put back. *)
Theorem contextual_function_restores_on_return_only :
  forall a (value : V) (func : Context V -> Context V * option Exn) c,
    let after := fst (func (setattr c a value)) in
    let run := iterate (R := R) (contextual_function R a value func) c in
    fst (fst run) = []
    /\ snd run = snd (func (setattr c a value))
    /\ (snd (func (setattr c a value)) = None ->
        getattr (snd (fst run)) a = getattr c a
        /\ forall b, a <> b -> getattr (snd (fst run)) b = getattr after b)
    /\ (snd (func (setattr c a value)) <> None -> snd (fst run) = after).
Proof.
  intros a value func c after run. unfold run, after, contextual_function.
  cbn [iterate].
  destruct (func (setattr c a value)) as [c' [e|]]; cbn [fst snd iterate_outcome].
  - split; [reflexivity|]. split; [reflexivity|]. split; [discriminate|].
    reflexivity.
  - split; [reflexivity|]. split; [reflexivity|]. split; [|congruence].
    intros _. split.
    + apply getattr_setattr.
    + intros b Hb. apply getattr_setattr_other. exact Hb.
Qed.

End ContextualExtras.

(* ===================================================================== *)
(** ** The further properties at concrete inputs *)
(* ===================================================================== *)

Section Instances.
Import SpecLogic knowledge_base test_listeners.

(** Two generators, the second of which raises after its element, under the
    schedule that lets the second go first. *)
Lemma multiplex_loses_nothing_witness :
  ending (asynctools.multiplex [1; 0]
            [mkStream [1; 2] Finished; mkStream [3] (Raised ValueError)])
  = Finished
  /\ Permutation
       (yielded (asynctools.multiplex [1; 0]
                   [mkStream [1; 2] Finished; mkStream [3] (Raised ValueError)]))
       [1; 2; 3].
Proof.
  exact (multiplex_loses_nothing [1; 0]
           [mkStream [1; 2] Finished; mkStream [3] (Raised ValueError)] eq_refl).
Defined.

Lemma multiplex_keeps_each_order_witness :
  Forall (fun g => subsequence (yielded g)
                     (yielded (asynctools.multiplex [1; 0]
                                 [mkStream [1; 2] Finished;
                                  mkStream [3] (Raised ValueError)])))
         [mkStream [1; 2] Finished; mkStream [3] (Raised ValueError)].
Proof.
  exact (multiplex_keeps_each_order [1; 0]
           [mkStream [1; 2] Finished; mkStream [3] (Raised ValueError)] eq_refl).
Defined.

Lemma multiplex_of_one_generator_witness :
  asynctools.multiplex [5] [mkStream [1; 2] (Raised ValueError)]
  = mkStream [1; 2] Finished.
Proof.
  exact (multiplex_of_one_generator [5] (mkStream [1; 2] (Raised ValueError))
           eq_refl).
Defined.

Lemma prove_yields_every_proof_of_every_source_witness :
  ending (fst (prove asynctools.NoRunningLoop cat_knowledge_base (Is dylan cat)
                     false None (mkWorld 9 [])))
  = Finished.
Proof.
  exact (proj1 (prove_yields_every_proof_of_every_source cat_knowledge_base
                  (Is dylan cat) false None (mkWorld 9 []) eq_refl)).
Defined.

Lemma retrieve_only_proofs_are_retrievals_witness :
  Forall (fun p => exists s,
              p = proof_of (knowledge_retriever cat_knowledge_base) (Is dylan cat) s)
         (yielded (fst (prove asynctools.NoRunningLoop cat_knowledge_base
                              (Is dylan cat) true None (mkWorld 9 [])))).
Proof.
  exact (proj2 (retrieve_only_proofs_are_retrievals (Is dylan cat) None
                  (mkWorld 9 [])
                  (reachable_add_formulas [Is dylan cat] 3 (reachable_init [] 0)))).
Defined.

(** The knowledge base of scenario 2 with a prover registered for
    [Is(dylan, cat)]: [prove] yields the proof of the retriever and the
    proof of the prover, and with [retrieve_only=True] the first only. *)
Lemma prove_sources_and_ponder_modes_witness :
  reachable examples.proving_knowledge_base
  /\ provers_never_block examples.proving_knowledge_base
  /\ ending (fst (prove asynctools.NoRunningLoop examples.proving_knowledge_base
                        (Is dylan cat) false None (mkWorld 10 [1])))
     = Finished
  /\ Permutation
       (yielded (fst (prove asynctools.NoRunningLoop
                            examples.proving_knowledge_base
                            (Is dylan cat) false None (mkWorld 10 [1]))))
       [proof_of (knowledge_retriever examples.proving_knowledge_base)
                 (Is dylan cat) empty_substitution;
        mkProof (ProvedBy 9) (PyLogicObject (Is dylan cat))
                (PySubstitution empty_substitution) []]
  /\ Permutation
       (yielded (fst (prove asynctools.NoRunningLoop
                            examples.proving_knowledge_base
                            (Is dylan cat) true None (mkWorld 10 [1]))))
       [proof_of (knowledge_retriever examples.proving_knowledge_base)
                 (Is dylan cat) empty_substitution].
Proof.
  assert (Hr : reachable examples.proving_knowledge_base).
  { exact (reachable_add_prover examples.dylan_prover
             (reachable_add_formulas [Is dylan cat] 3 (reachable_init [] 0))). }
  assert (Hnb : provers_never_block examples.proving_knowledge_base).
  { intros formula prover previous w Hin.
    change (In prover
              (map snd
                 (filter (fun e => compatible (fst e) (term_key formula))
                         [(term_key (Is dylan cat), examples.dylan_prover)])))
      in Hin.
    apply in_map_iff in Hin. destruct Hin as ([key registered] & <- & Hin).
    apply filter_In in Hin. destruct Hin as [[Hin|[]] _].
    inversion Hin; subst. reflexivity. }
  split; [exact Hr|]. split; [exact Hnb|].
  destruct (prove_sources_and_ponder_modes Hr Hnb) as [Hprove _].
  destruct (Hprove (Is dylan cat) None false (mkWorld 10 [1]))
    as (_ & He & Hp & _).
  destruct (Hprove (Is dylan cat) None true (mkWorld 10 [1]))
    as (_ & _ & Hq & _).
  split; [exact He|]. split; [exact Hp|exact Hq].
Defined.

Lemma ponder_raises_only_for_unknown_modes_witness :
  NotImplementedError = NotImplementedError
  /\ Mode HYPOTHETICALLY <> Mode KNOWN /\ Mode HYPOTHETICALLY <> Mode PROVE.
Proof.
  exact (ponder_raises_only_for_unknown_modes false 0 None test_knowledge_base
           [] (Mode HYPOTHETICALLY) (mkWorld 3 []) eq_refl eq_refl).
Defined.


(** A generator that yields [dylan], then [None], then [cat]. *)
Lemma unaccepted_item_raises_after_the_proofs_before_it_witness :
  listeners.emit meow_and_purr_listener (PyLogicObject (Is dylan cat))
                 empty_substitution
                 ([PyLogicObject dylan] ++ PyNone :: [PyLogicObject cat])
                 Finished dylan_is_a_cat
  = mkStream
      (yielded (listeners.emit meow_and_purr_listener (PyLogicObject (Is dylan cat))
                               empty_substitution [PyLogicObject dylan] Finished
                               dylan_is_a_cat))
      (Raised ValueError).
Proof.
  exact (unaccepted_item_raises_after_the_proofs_before_it meow_and_purr_listener
           (PyLogicObject (Is dylan cat)) empty_substitution [PyLogicObject dylan]
           PyNone [PyLogicObject cat] Finished dylan_is_a_cat eq_refl eq_refl).
Defined.

(** A handler whose generator yields [Meows(dylan)] and then raises. *)
Lemma generator_of_terms_ends_as_the_generator_witness :
  ending
    (listeners.fire
       (mkListener 30 (Is (Var (mkVar 0 (Some "_x") 31)) cat)
          (fun _ =>
             Returns (PyGenerator [PyLogicObject (apply_constant "Meows" dylan)]
                                  (Raised (UserException "SomeException"))))
          MAP true SAFE 32)
       dylan_is_a_cat empty_substitution [("_x", PyLogicObject dylan)])
  = Raised (UserException "SomeException").
Proof.
  exact (proj2 (proj2
           (generator_of_terms_ends_as_the_generator
              (mkListener 30 (Is (Var (mkVar 0 (Some "_x") 31)) cat)
                 (fun _ =>
                    Returns (PyGenerator
                               [PyLogicObject (apply_constant "Meows" dylan)]
                               (Raised (UserException "SomeException"))))
                 MAP true SAFE 32)
              dylan_is_a_cat empty_substitution [("_x", PyLogicObject dylan)]
              eq_refl eq_refl))).
Defined.

(** A generator that yields 7 once, decorated with [contextual('kb', 5)] and
    iterated where [kb] is 0: the attribute ends at 5. *)
Lemma contextual_generator_swaps_but_does_not_restore_witness :
  context.getattr
    (snd (fst (context.iterate
                 (context.contextual_generator context.kb 5
                    (context.resume_with
                       (fun c => context.Yields c 7
                                   (context.resume_with
                                      (fun c' => context.Returned nat c')))))
                 (context.mkContext 0 1 2))))
    context.kb
  = 5.
Proof.
  exact (proj2 (proj2 (proj2
           (contextual_generator_swaps_but_does_not_restore context.kb 5
              (context.resume_with
                 (fun c => context.Yields c 7
                             (context.resume_with
                                (fun c' => context.Returned nat c'))))
              (context.mkContext 0 1 2)
              (fun c H => conj H (fun c0 H0 => H0)))))).
Defined.

End Instances.
